(** * merge_csv_text.py: merging the "Text" column of CSV transcripts

    A shallow embedding of [docs/merge_csv_text.py] and of the parts of the
    Python library the script calls ([str.strip], [str.join], [str.split],
    [csv.DictReader], [glob.glob]), followed by the properties of the script.

    Scope of the model.
    - A Python [str] is its sequence of Unicode code points.
    - A file is given by the records [csv.reader] yields for it (one list of
      fields per line, the empty list for a blank line).  Opening, decoding
      and tokenising the file are below this boundary; readers that fail
      there (OSError, UnicodeDecodeError, csv.Error) are not modelled.
    - A directory is the sequence of its entries in the order [os.scandir]
      lists them, which is the order [glob.glob] returns its matches in.
    - The console is the sequence of [print] calls, one constructor per
      [print] statement of the script. *)

From Stdlib Require Import NArith Ascii String List.
From stdpp Require Import base option list gmap.

Open Scope N_scope.
Open Scope list_scope.

(** A Python string: a sequence of code points. *)
Abbreviation str := (list N).

(** Code points of an ASCII literal, to write examples. *)
Definition u (s : string) : str :=
  List.map N_of_ascii (list_ascii_of_string s).

(* ------------------------------------------------------------------ *)
(** ** Python builtins *)

Module Py.

(** Exceptions the script can raise inside the model. *)
Inductive exn := TypeError | AttributeError | KeyError.

(** A value stored in a [DictReader] row. *)
Inductive value :=
| Str (s : str)
| None_
| List_ (l : list str).

(** [str.isspace] on one code point (CPython's [_PyUnicode_IsWhitespace]). *)
Definition isspace (c : N) : bool :=
  ((0x09 <=? c) && (c <=? 0x0D)) || ((0x1C <=? c) && (c <=? 0x20))
  || (c =? 0x85) || (c =? 0xA0) || (c =? 0x1680)
  || ((0x2000 <=? c) && (c <=? 0x200A))
  || (c =? 0x2028) || (c =? 0x2029) || (c =? 0x202F) || (c =? 0x205F)
  || (c =? 0x3000).

(** [s.lstrip()]: drop the leading whitespace. *)
Fixpoint lstrip (s : str) : str :=
  match s with
  | [] => []
  | c :: s' => if isspace c then lstrip s' else s
  end.

(** [s.rstrip()]: drop the trailing whitespace. *)
Definition rstrip (s : str) : str := rev (lstrip (rev s)).

(** [s.strip()]. *)
Definition strip (s : str) : str := rstrip (lstrip s).

(** [sep.join(l)]. *)
Fixpoint join (sep : str) (l : list str) : str :=
  match l with
  | [] => []
  | x :: rest =>
      match rest with
      | [] => x
      | _ :: _ => x ++ sep ++ join sep rest
      end
  end.

(** [s.split()]: the maximal runs of non-whitespace; [w] is the run being
    read, reversed. *)
Fixpoint split_from (w : str) (s : str) : list str :=
  match s with
  | [] => match w with [] => [] | _ :: _ => [rev w] end
  | c :: s' =>
      if isspace c
      then match w with
           | [] => split_from [] s'
           | _ :: _ => rev w :: split_from [] s'
           end
      else split_from (c :: w) s'
  end.

Definition split (s : str) : list str := split_from [] s.

(** Truth value of a string in [if text:]. *)
Definition truthy (s : str) : bool :=
  match s with [] => false | _ :: _ => true end.

End Py.

(* ------------------------------------------------------------------ *)
(** ** csv.DictReader *)

Module Csv.

(** One record as [csv.reader] yields it. *)
Abbreviation record := (list str).

(** A file, as the records [csv.reader] yields for it. *)
Abbreviation file := (list (list str)).

(** A row of [DictReader]: keys are field names or [None] (the default
    [restkey]). *)
Abbreviation dict := (gmap (option str) Py.value).

(** [dict(zip(fieldnames, row))]: a later duplicate of a key wins. *)
Fixpoint dict_zip (fieldnames : list str) (row : record) (d : dict) : dict :=
  match fieldnames, row with
  | k :: ks, v :: vs => dict_zip ks vs (<[Some k := Py.Str v]> d)
  | _, _ => d
  end.

(** [for key in keys: d[key] = restval], with the default [restval]. *)
Fixpoint fill_restval (keys : list str) (d : dict) : dict :=
  match keys with
  | [] => d
  | k :: ks => fill_restval ks (<[Some k := Py.None_]> d)
  end.

(** The dictionary [DictReader.__next__] builds from a non-blank record. *)
Definition row (fieldnames : list str) (r : record) : dict :=
  let d := dict_zip fieldnames r ∅ in
  let lf := length fieldnames in
  let lr := length r in
  if (lf <? lr)%nat then <[None := Py.List_ (drop lf r)]> d
  else if (lr <? lf)%nat then fill_restval (drop lr fieldnames) d
  else d.

(** [reader.fieldnames]: the first record, [None] when there is none. *)
Definition fieldnames (f : file) : option (list str) :=
  match f with
  | [] => None
  | header :: _ => Some header
  end.

Definition is_blank (r : record) : bool :=
  match r with [] => true | _ :: _ => false end.

(** The rows iteration yields once the field names were read: the records
    after the first, blank ones skipped. *)
Fixpoint rows_from (fieldnames : list str) (records : list record) : list dict :=
  match records with
  | [] => []
  | r :: rest =>
      if is_blank r then rows_from fieldnames rest
      else row fieldnames r :: rows_from fieldnames rest
  end.

Definition rows (f : file) : list dict :=
  match f with
  | [] => []
  | header :: records => rows_from header records
  end.

End Csv.

(* ------------------------------------------------------------------ *)
(** ** glob.glob *)

Module Glob.

(** A directory entry: its name and the file behind it. *)
Abbreviation entry := (list N * list (list str))%type.

(** A directory, in listing order. *)
Abbreviation directory := (list (list N * list (list str))).

(** [fnmatch] of a name against ["*" + suffix]. *)
Definition ends_with (suffix name : str) : bool :=
  bool_decide (drop (length name - length suffix)%nat name = suffix).

(** [glob._ishidden]. *)
Definition ishidden (name : str) : bool :=
  match name with
  | c :: _ => c =? 46
  | [] => false
  end.

(** The names ["*.csv"] matches: visible, ending in [".csv"] (names are
    compared as they are, case included, as on POSIX systems). *)
Definition matches (name : str) : bool :=
  negb (ishidden name) && ends_with (u ".csv") name.

(** [glob.glob(os.path.join(script_dir, "*.csv"))]. *)
Definition glob (dir : directory) : directory :=
  List.filter (fun e => matches (fst e)) dir.

End Glob.

(* ------------------------------------------------------------------ *)
(** ** The script *)

Module Script.

Import Py.

(** One constructor per [print] statement. *)
Inductive line :=
| Found (n : nat)              (* "Found {n} CSV files:" *)
| Listed (name : str)          (* "  - {name}" *)
| Processing (name : str)      (* "\nProcessing: {name}" *)
| WarningNoText                (* "  WARNING: No 'Text' column found, skipping" *)
| Extracted (row_count : nat)  (* "  Extracted {row_count} text entries" *)
| Written (output_file : str)  (* "\n✓ Merged text written to: {output_file}" *)
| TotalCharacters (n : nat)    (* "  Total characters: {n:,}" *)
| TotalWords (n : nat).        (* "  Total words (approx): {n:,}" *)

(** The module-level variables the loops assign to, the console, and the
    text written to the output file ([None] until it is written). *)
Record state := State {
  stdout : list line;
  all_text : list str;
  row_count : nat;
  written : option str;
}.

Inductive outcome (A : Type) :=
| Returned (a : A)
| Raised (e : exn).
Arguments Returned {A} a.
Arguments Raised {A} e.

(** Statements: state passing, with uncaught exceptions. *)
Definition M (A : Type) : Type := state -> state * outcome A.

Definition ret {A} (a : A) : M A := fun s => (s, Returned a).

Definition raise {A} (e : exn) : M A := fun s => (s, Raised e).

Definition bind {A B} (m : M A) (k : A -> M B) : M B :=
  fun s =>
    match m s with
    | (s', Returned a) => k a s'
    | (s', Raised e) => (s', Raised e)
    end.

Notation "x <- m ;; k" := (bind m (fun x => k))
  (at level 100, m at next level, right associativity).
Notation "m ;; k" := (bind m (fun _ => k))
  (at level 100, right associativity).

(** [for x in l: body]. *)
Fixpoint for_each {A} (l : list A) (body : A -> M unit) : M unit :=
  match l with
  | [] => ret tt
  | x :: rest => body x ;; for_each rest body
  end.

Definition print (l : line) : M unit :=
  fun s => (State (stdout s ++ [l]) (all_text s) (row_count s) (written s),
            Returned tt).

(** [all_text.append(text)]. *)
Definition append_all_text (text : str) : M unit :=
  fun s => (State (stdout s) (all_text s ++ [text]) (row_count s) (written s),
            Returned tt).

(** [all_text = l]. *)
Definition set_all_text (l : list str) : M unit :=
  fun s => (State (stdout s) l (row_count s) (written s), Returned tt).

(** [row_count = n]. *)
Definition set_row_count (n : nat) : M unit :=
  fun s => (State (stdout s) (all_text s) n (written s), Returned tt).

Definition get_row_count : M nat := fun s => (s, Returned (row_count s)).

Definition get_all_text : M (list str) := fun s => (s, Returned (all_text s)).

(** [f.write(merged_text)] on the output file opened with mode ['w']. *)
Definition write_output (merged_text : str) : M unit :=
  fun s => (State (stdout s) (all_text s) (row_count s) (Some merged_text),
            Returned tt).

(** [x not in container], where the container is a list or [None]. *)
Definition not_in (x : str) (container : option (list str)) : M bool :=
  match container with
  | None => raise TypeError
  | Some l => ret (negb (bool_decide (x ∈ l)))
  end.

(** [row[key]]. *)
Definition getitem (row : Csv.dict) (key : str) : M value :=
  match row !! Some key with
  | Some v => ret v
  | None => raise KeyError
  end.

(** [v.strip()]: only strings have the method. *)
Definition strip_method (v : value) : M str :=
  match v with
  | Str s => ret (strip s)
  | None_ => raise AttributeError
  | List_ _ => raise AttributeError
  end.

Definition Text : str := u "Text".

Definition output_file : str := u "merged_vocabulary.txt".

(** [os.path.basename(csv_file)]. *)
Definition basename (csv_file : Glob.entry) : str := fst csv_file.

(** [csv.DictReader(open(csv_file, 'r', encoding='utf-8'))], as the records
    behind the entry. *)
Definition reader (csv_file : Glob.entry) : Csv.file := snd csv_file.

(** Body of [for row in reader:] (lines 35-38). *)
Definition extract_row (row : Csv.dict) : M unit :=
  v <- getitem row Text ;;
  text <- strip_method v ;;
  if truthy text
  then (append_all_text text ;;
        n <- get_row_count ;;
        set_row_count (n + 1))
  else ret tt.

(** Body of [for csv_file in csv_files:] (lines 23-40). *)
Definition process_file (csv_file : Glob.entry) : M unit :=
  print (Processing (basename csv_file)) ;;
  missing <- not_in Text (Csv.fieldnames (reader csv_file)) ;;
  if missing
  then print WarningNoText (* continue *)
  else (set_row_count 0 ;;
        for_each (Csv.rows (reader csv_file)) extract_row ;;
        n <- get_row_count ;;
        print (Extracted n)).

(** The script, from the directory it finds next to itself. *)
Definition main (dir : Glob.directory) : M unit :=
  let csv_files := Glob.glob dir in
  print (Found (length csv_files)) ;;
  for_each csv_files (fun f => print (Listed (basename f))) ;;
  set_all_text [] ;;
  for_each csv_files process_file ;;
  all <- get_all_text ;;
  let merged_text := join (u " ") all in
  write_output merged_text ;;
  print (Written output_file) ;;
  print (TotalCharacters (length merged_text)) ;;
  print (TotalWords (length (split merged_text))).

(** State at the start of a run: nothing printed, nothing written. *)
Definition initial : state := State [] [] 0 None.

Definition run (dir : Glob.directory) : state * outcome unit :=
  main dir initial.

End Script.

Import Py Script.

(* ------------------------------------------------------------------ *)
(** ** Vocabulary of the properties *)

Definition space : N := 32.

(** An entry with no whitespace at either end (and possibly empty). *)
Definition no_outer_space (e : str) : Prop :=
  (forall c, head e = Some c -> isspace c = false) /\
  (forall c, last e = Some c -> isspace c = false).

(** A text entry: non-empty, no whitespace at either end. *)
Definition trimmed (e : str) : Prop := e <> [] /\ no_outer_space e.

(** Every entry of [es] followed by the separator. *)
Definition with_separators (sep : str) (es : list str) : str :=
  concat (List.map (fun e => e ++ sep) es).

(** The text entry of a row: the trimmed [Text] value, when it is a non-empty
    string. *)
Definition entry_of_row (d : Csv.dict) : option str :=
  match d !! Some Text with
  | Some (Str s) => if truthy (strip s) then Some (strip s) else None
  | _ => None
  end.

(** The text entries of a file, in row order; none without a [Text] field. *)
Definition text_entries (f : Csv.file) : list str :=
  match Csv.fieldnames f with
  | Some header =>
      if bool_decide (Text ∈ header) then omap entry_of_row (Csv.rows f) else []
  | None => []
  end.

(** The header of the file contains the required field. *)
Definition has_text_header (f : Glob.entry) : bool :=
  match Csv.fieldnames (reader f) with
  | Some header => bool_decide (Text ∈ header)
  | None => false
  end.

Definition is_extracted (l : line) : bool :=
  match l with Extracted _ => true | _ => false end.

(** Number of "Extracted" lines on the console. *)
Definition extracted_messages (out : list line) : nat :=
  length (List.filter is_extracted out).

(** The entry is the output file of the script. *)
Definition is_output (e : Glob.entry) : bool :=
  bool_decide (fst e = output_file).

(** The directory without the output file: what a run of the script leaves
    untouched. *)
Definition inputs (dir : Glob.directory) : Glob.directory :=
  List.filter (fun e => negb (is_output e)) dir.

(* ------------------------------------------------------------------ *)
(** ** What the loops of the script compute, as functions *)

(** The entries line 35-38 append for one row, or the exception raised. *)
Definition row_entries (d : Csv.dict) : outcome (list str) :=
  match d !! Some Text with
  | None => Raised KeyError
  | Some (Str s) => Returned (if truthy (strip s) then [strip s] else [])
  | Some None_ => Raised AttributeError
  | Some (List_ _) => Raised AttributeError
  end.

(** The entries the row loop appends until it ends or raises. *)
Fixpoint rows_effect (rows : list Csv.dict) : list str * outcome unit :=
  match rows with
  | [] => ([], Returned tt)
  | d :: rest =>
      match row_entries d with
      | Raised e => ([], Raised e)
      | Returned es => let '(es', o) := rows_effect rest in (es ++ es', o)
      end
  end.

(** Lines printed and entries appended while one file is processed. *)
Definition file_effect (f : Glob.entry) : list line * list str * outcome unit :=
  match Csv.fieldnames (reader f) with
  | None => ([Processing (basename f)], [], Raised TypeError)
  | Some header =>
      if bool_decide (Text ∈ header)
      then let '(es, o) := rows_effect (Csv.rows (reader f)) in
           (Processing (basename f) ::
              match o with
              | Returned _ => [Extracted (length es)]
              | Raised _ => []
              end, es, o)
      else ([Processing (basename f); WarningNoText], [], Returned tt)
  end.

(** Lines printed and entries appended by the loop over the files. *)
Fixpoint files_effect (l : list Glob.entry) : list line * list str * outcome unit :=
  match l with
  | [] => ([], [], Returned tt)
  | f :: rest =>
      match file_effect f with
      | (out, es, Raised e) => (out, es, Raised e)
      | (out, es, Returned _) =>
          let '(out', es', o) := files_effect rest in
          (out ++ out', es ++ es', o)
      end
  end.

(** Lines printed before the loop over the files. *)
Definition listing (csv_files : list Glob.entry) : list line :=
  Found (length csv_files) :: List.map (fun f => Listed (basename f)) csv_files.

(** Lines printed after the output was written. *)
Definition summary (merged_text : str) : list line :=
  [Written output_file; TotalCharacters (length merged_text);
   TotalWords (length (split merged_text))].

(** State in which the loop over the files starts (line 22). *)
Definition files_loop_start (dir : Glob.directory) : state :=
  State (listing (Glob.glob dir)) [] 0 None.

(* ------------------------------------------------------------------ *)
(** ** Directories used as examples *)

(** Records of Scenario A: header [Name,Text] and two data rows. *)
Definition scenario_A_records : Csv.file :=
  [ [u "Name"; u "Text"]; [u "A"; u "hello"]; [u "B"; u "  world  "] ].

Definition scenario_A_dir : Glob.directory :=
  [ (u "transcript.csv", scenario_A_records); (u "notes.txt", [[u "ignored"]]) ].

(** A header in lower case and a second file, to instantiate C3. *)
Definition lowercase_header_file : Glob.entry :=
  (u "old.csv", [ [u "Name"; u "text"]; [u "A"; u "lost"] ]).

Definition no_csv_dir : Glob.directory :=
  [ (u "notes.txt", [[u "Text"]; [u "x"]]); (u ".hidden.csv", [[u "Text"]; [u "y"]]);
    (u "merged_vocabulary.txt", [[u "z"]]); (u "csv", [[u "Text"]; [u "w"]]) ].

Definition empty_file_dir : Glob.directory :=
  [ (u "first.csv", scenario_A_records); (u "empty.csv", []);
    (u "last.csv", scenario_A_records) ].

Definition short_row_dir : Glob.directory :=
  [ (u "short.csv",
     [ [u "Name"; u "Text"]; [u "A"; u "kept"]; [u "B"]; [u "C"; u "never read"] ]) ].

Definition blank_rows_dir : Glob.directory :=
  [ (u "a.csv", [ [u "Text"]; [u "kept"]; [[9; 32; 0xA0; 0x3000]]; [u "also kept"] ]) ].

Definition scenario_C_dir : Glob.directory :=
  [ (u "file1.csv", [ [u "Text"; u "Speaker"]; [u " foo"; u "x"]; []; [u "bar "; u "y"] ]);
    (u "file2.csv", [ [u "Id"; u "Text"]; [u "1"; u "baz"]; [u "2"; u "   "] ]) ].

Definition scenario_C_final : state := Eval vm_compute in (run scenario_C_dir).1.

Definition mixed_dir : Glob.directory :=
  [ lowercase_header_file; (u "t.csv", scenario_A_records);
    (u "blank_first_line.csv", [ []; [u "Text"]; [u "x"] ]);
    (u "u.csv", [ [u "Text"] ]) ].

Definition mixed_final : state := Eval vm_compute in (run mixed_dir).1.

Definition inner_spaces_dir : Glob.directory :=
  [ (u "a.csv", [ [u "Text"]; [u "  one  two "]; [u ""]; [u "three"] ]) ].

Definition inner_spaces_final : state := Eval vm_compute in (run inner_spaces_dir).1.

Definition order_dir_1 : Glob.directory :=
  [ (u "a.csv", [ [u "Text"]; [u "alpha"] ]); (u "b.csv", [ [u "Text"]; [u "beta"] ]) ].

Definition order_dir_2 : Glob.directory :=
  [ (u "b.csv", [ [u "Text"]; [u "beta"] ]); (u "a.csv", [ [u "Text"]; [u "alpha"] ]) ].

(** The directory [order_dir_1] once a run has created its output file. *)
Definition order_dir_1_after : Glob.directory :=
  [ (u "a.csv", [ [u "Text"]; [u "alpha"] ]);
    (u "merged_vocabulary.txt", [ [u "alpha beta"] ]);
    (u "b.csv", [ [u "Text"]; [u "beta"] ]) ].

(* ------------------------------------------------------------------ *)
(** ** Vocabulary of the further properties *)

(** The record is blank, or gives a value to every [Text] column. *)
Definition row_ok (header r : Csv.record) : bool :=
  Csv.is_blank r || negb (bool_decide (Text ∈ drop (length r) header)).

(** The file has a first record and, when this header contains [Text], no
    record that leaves a [Text] column without a value. *)
Definition file_ok (f : Glob.entry) : bool :=
  match reader f with
  | [] => false
  | header :: records =>
      if bool_decide (Text ∈ header) then forallb (row_ok header) records else true
  end.

(** The exception the first file that is not [file_ok] makes the loop raise. *)
Definition first_failure (l : list Glob.entry) : option exn :=
  match List.find (fun f => negb (file_ok f)) l with
  | None => None
  | Some f => Some (match reader f with [] => TypeError | _ :: _ => AttributeError end)
  end.

(** Names in the "Processing" lines of the console, in order. *)
Definition processed_names (out : list line) : list str :=
  omap (fun l => match l with Processing name => Some name | _ => None end) out.

(** Counts in the "Extracted" lines of the console, in order. *)
Definition extracted_counts (out : list line) : list nat :=
  omap (fun l => match l with Extracted n => Some n | _ => None end) out.

Definition is_warning (l : line) : bool :=
  match l with WarningNoText => true | _ => false end.

(** Number of warning lines on the console. *)
Definition warning_messages (out : list line) : nat :=
  length (List.filter is_warning out).

(** Number of words of a string, as [len(s.split())] counts them. *)
Definition words (s : str) : nat := length (split s).

(* ------------------------------------------------------------------ *)
(** ** The text of the console lines *)

(** Code point of a decimal digit. *)
Definition digit_char (d : nat) : N := 48 + N.of_nat d.

(** Decimal digits of [n], least significant first; [fuel] bounds their
    number. *)
Fixpoint digits_rev (fuel n : nat) : list nat :=
  match fuel with
  | O => []
  | S fuel' =>
      if (n <? 10)%nat then [n]
      else (n mod 10)%nat :: digits_rev fuel' (n / 10)%nat
  end.

(** [f"{n}"] for a count [n]. *)
Definition decimal (n : nat) : str :=
  rev (digit_char <$> digits_rev (S n) n).

(** A comma after every third digit that has a digit after it; digits least
    significant first. *)
Fixpoint group3 (ds : str) : str :=
  match ds with
  | a :: b :: c :: rest =>
      match rest with
      | [] => ds
      | _ :: _ => a :: b :: c :: 44 :: group3 rest
      end
  | _ => ds
  end.

(** [f"{n:,}"] for a count [n]. *)
Definition thousands (n : nat) : str :=
  rev (group3 (digit_char <$> digits_rev (S n) n)).

(** [os.path.join(a, b)] on a POSIX system. *)
Definition path_join (a b : str) : str :=
  if match b with c :: _ => c =? 47 | [] => false end then b
  else match last a with
       | None => a ++ b
       | Some c => if c =? 47 then a ++ b else a ++ 47 :: b
       end.

(** [os.path.basename(p)] on a POSIX system: what follows the last slash. *)
Fixpoint posix_basename (p : str) : str :=
  match p with
  | [] => []
  | c :: p' =>
      if bool_decide (47 ∈ p') then posix_basename p'
      else if c =? 47 then p' else p
  end.


(** The number a sequence of digits denotes, least significant first. *)
Fixpoint value_rev (ds : list nat) : nat :=
  match ds with
  | [] => 0
  | d :: ds' => d + 10 * value_rev ds'
  end.


(* ------------------------------------------------------------------ *)
(** ** Further directories used as examples *)

Definition words_dir : Glob.directory :=
  [ (u "a.csv", [ [u "Text"]; [u " good  morning "]; [u "hi"] ]);
    (u "b.csv", [ [u "Text"]; [u "see you later"] ]) ].

Definition words_final : state := Eval vm_compute in (run words_dir).1.


(** A file with a first record that does not contain [Text]. *)
Definition lacks_text (f : Glob.entry) : bool :=
  match reader f with
  | [] => false
  | header :: _ => negb (bool_decide (Text ∈ header))
  end.

Definition scenario_B_dir : Glob.directory :=
  [ (u "b.csv", [ [u "Name"; u "Value"]; [u "A"; u "1"] ]); lowercase_header_file ].

(* ------------------------------------------------------------------ *)
(** ** Facts about the string builtins *)

Lemma isspace_space : isspace space = true.
Proof. reflexivity. Qed.

(** [lstrip] keeps a suffix of its argument. *)
Lemma lstrip_suffix (s : str) : exists k, s = k ++ lstrip s.
Proof.
  induction s as [|c s [k IH]]; simpl.
  - exists []. reflexivity.
  - destruct (isspace c).
    + exists (c :: k). simpl. f_equal. exact IH.
    + exists []. reflexivity.
Qed.

Lemma lstrip_head (s : str) (c : N) :
  head (lstrip s) = Some c -> isspace c = false.
Proof.
  induction s as [|d s IH]; simpl; [discriminate|].
  destruct (isspace d) eqn:E; [exact IH|].
  simpl. intros [= <-]. exact E.
Qed.

Lemma lstrip_all_space (s : str) :
  forallb isspace s = true -> lstrip s = [].
Proof.
  induction s as [|c s IH]; simpl; [reflexivity|].
  destruct (isspace c); simpl; [exact IH|discriminate].
Qed.

Lemma lstrip_nil_inv (s : str) :
  lstrip s = [] -> forallb isspace s = true.
Proof.
  induction s as [|c s IH]; simpl; [reflexivity|].
  destruct (isspace c); simpl; [exact IH|discriminate].
Qed.

Lemma lstrip_last (s : str) (c : N) :
  last (lstrip s) = Some c -> last s = Some c.
Proof.
  destruct (lstrip_suffix s) as [k Hk].
  intros H. rewrite Hk, last_app, H. reflexivity.
Qed.

Lemma head_rev (s : str) : head (rev s) = last s.
Proof.
  induction s as [|c s IH] using rev_ind; [reflexivity|].
  rewrite rev_app_distr, last_snoc. reflexivity.
Qed.

Lemma last_rev (s : str) : last (rev s) = head s.
Proof. rewrite <- head_rev, rev_involutive. reflexivity. Qed.

(** What [strip] returns neither starts nor ends with whitespace. *)
Lemma strip_head (s : str) (c : N) :
  head (strip s) = Some c -> isspace c = false.
Proof.
  unfold strip, rstrip. rewrite head_rev. intros H.
  apply lstrip_last in H. rewrite last_rev in H.
  exact (lstrip_head _ _ H).
Qed.

Lemma strip_last (s : str) (c : N) :
  last (strip s) = Some c -> isspace c = false.
Proof.
  unfold strip, rstrip. rewrite last_rev. apply lstrip_head.
Qed.

(** [strip] returns the empty string exactly on whitespace-only strings. *)
Lemma strip_all_space (s : str) :
  forallb isspace s = true -> strip s = [].
Proof.
  intros H. unfold strip, rstrip. rewrite (lstrip_all_space s H). reflexivity.
Qed.

Lemma strip_nil_inv (s : str) :
  strip s = [] -> forallb isspace s = true.
Proof.
  unfold strip, rstrip. intros H.
  apply (f_equal (@rev N)) in H. rewrite rev_involutive in H. simpl in H.
  apply lstrip_nil_inv in H.
  destruct (lstrip_suffix s) as [k Hk].
  destruct (lstrip s) as [|c t] eqn:E; [apply lstrip_nil_inv; exact E|].
  exfalso.
  assert (Hc : isspace c = false) by (apply (lstrip_head s); rewrite E; reflexivity).
  rewrite forallb_forall in H.
  rewrite (H c) in Hc; [discriminate|].
  apply in_rev. rewrite rev_involutive. left. reflexivity.
Qed.

(* ------------------------------------------------------------------ *)
(** ** Facts about [join] *)

Lemma join_cons (sep e : str) (es : list str) :
  es <> [] -> join sep (e :: es) = e ++ sep ++ join sep es.
Proof. destruct es; [congruence|reflexivity]. Qed.

(** The output is the entries before a point, each followed by one
    separator, and then the join of the rest. *)
Lemma join_app (sep : str) (es1 es2 : list str) :
  es2 <> [] -> join sep (es1 ++ es2) = with_separators sep es1 ++ join sep es2.
Proof.
  intros Hne. induction es1 as [|e es1 IH]; [reflexivity|].
  change ((e :: es1) ++ es2) with (e :: (es1 ++ es2)).
  rewrite join_cons by (destruct es1, es2; simpl; congruence).
  rewrite IH. unfold with_separators. simpl.
  rewrite <- !app_assoc. reflexivity.
Qed.

Lemma join_head (sep e : str) (es : list str) :
  e <> [] -> head (join sep (e :: es)) = head e.
Proof.
  intros He. destruct es; [reflexivity|].
  rewrite join_cons by congruence. destruct e; [congruence|reflexivity].
Qed.

Lemma join_last (sep e : str) (es : list str) :
  e <> [] -> last (join sep (es ++ [e])) = last e.
Proof.
  intros He. rewrite join_app by congruence. simpl.
  destruct e as [|c e] using rev_ind; [congruence|].
  rewrite app_assoc, !last_snoc. reflexivity.
Qed.

Lemma join_nil_inv (sep : str) (es : list str) :
  Forall trimmed es -> join sep es = [] -> es = [].
Proof.
  destruct es as [|e es]; [reflexivity|].
  intros H Hj. apply Forall_cons in H as [[He _] _].
  apply (f_equal head) in Hj. rewrite join_head in Hj by exact He.
  destruct e; [congruence|discriminate].
Qed.

(** A doubled space in the join of trimmed entries lies inside one entry. *)
Lemma join_double_space (es : list str) (pre post : str) :
  Forall trimmed es ->
  join [space] es = pre ++ space :: space :: post ->
  exists es1 e es2 a b,
    es = es1 ++ e :: es2 /\
    e = a ++ space :: space :: b /\
    pre = with_separators [space] es1 ++ a /\
    post = b ++ match es2 with [] => [] | _ :: _ => space :: join [space] es2 end.
Proof.
  intros Htr. revert pre. induction Htr as [|e tl He Htl IH]; intros pre Hj.
  - destruct pre; discriminate.
  - destruct tl as [|e' tl'].
    + exists [], e, [], pre, post. simpl in *.
      rewrite app_nil_r. repeat split; assumption.
    + rewrite join_cons in Hj by congruence.
      assert (Hhd : forall r, join [space] (e' :: tl') <> space :: r).
      { intros r Hr. apply (f_equal head) in Hr.
        apply Forall_cons in Htl as [[Hne [Hh _]] _].
        rewrite join_head in Hr by exact Hne.
        specialize (Hh _ Hr). rewrite isspace_space in Hh. discriminate. }
      apply app_eq_app in Hj as [l [[H1 H2]|[H1 H2]]].
      * destruct l as [|c1 [|c2 l]]; simpl in H2.
        -- injection H2 as H2. symmetry in H2. destruct (Hhd _ H2).
        -- injection H2 as <- H2. destruct He as [_ [_ Hl]].
           specialize (Hl space). rewrite H1, last_snoc, isspace_space in Hl.
           specialize (Hl eq_refl). discriminate.
        -- injection H2 as <- <- H2.
           exists [], e, (e' :: tl'), pre, l. simpl.
           repeat split; [exact H1|exact H2].
      * destruct l as [|c l]; simpl in H2.
        -- injection H2 as H2. destruct (Hhd _ H2).
        -- injection H2 as <- H2.
           destruct (IH l H2) as (es1 & e0 & es2 & a & b & E1 & E2 & E3 & E4).
           exists (e :: es1), e0, es2, a, b.
           repeat split; [rewrite E1; reflexivity|exact E2| |exact E4].
           rewrite H1, E3. unfold with_separators. simpl.
           rewrite <- !app_assoc. reflexivity.
Qed.

(* ------------------------------------------------------------------ *)
(** ** Facts about [DictReader] rows *)

Lemma fill_restval_lookup (keys : list str) (d : Csv.dict) (k : str) :
  Csv.fill_restval keys d !! Some k =
  if bool_decide (k ∈ keys) then Some None_ else d !! Some k.
Proof.
  revert d. induction keys as [|k' keys IH]; intros d; cbn [Csv.fill_restval].
  - rewrite bool_decide_eq_false_2 by apply not_elem_of_nil. reflexivity.
  - rewrite IH. destruct (decide (k ∈ keys)) as [Hin|Hin].
    + rewrite !bool_decide_eq_true_2; [reflexivity|right; exact Hin|exact Hin].
    + rewrite (bool_decide_eq_false_2 _ Hin).
      destruct (decide (k = k')) as [->|Hne].
      * rewrite lookup_insert_eq, bool_decide_eq_true_2 by left. reflexivity.
      * rewrite lookup_insert_ne by congruence.
        rewrite bool_decide_eq_false_2; [reflexivity|].
        intros [->|H]%elem_of_cons; [congruence|exact (Hin H)].
Qed.

(** A field name paired with a field of the record maps to a string. *)
Lemma dict_zip_lookup (fieldnames : list str) (r : Csv.record) (d : Csv.dict) (k : str) :
  k ∈ take (length r) fieldnames \/ (exists s, d !! Some k = Some (Str s)) ->
  exists s, Csv.dict_zip fieldnames r d !! Some k = Some (Str s).
Proof.
  revert r d. induction fieldnames as [|k' ks IH]; intros r d H.
  - destruct H as [H|H]; [|destruct r; exact H].
    rewrite take_nil in H. destruct (not_elem_of_nil _ H).
  - destruct r as [|v vs]; simpl.
    + destruct H as [H|H]; [|exact H]. destruct (not_elem_of_nil _ H).
    + apply IH. destruct H as [H|[s H]].
      * simpl in H. apply elem_of_cons in H as [->|H]; [right|left; exact H].
        exists v. apply lookup_insert_eq.
      * destruct (decide (k = k')) as [->|Hne]; right.
        -- exists v. apply lookup_insert_eq.
        -- exists s. rewrite lookup_insert_ne by congruence. exact H.
Qed.

(** Short rows: a field name beyond the record maps to [None]. *)
Lemma row_missing_field (fieldnames : list str) (r : Csv.record) (k : str) :
  k ∈ drop (length r) fieldnames ->
  Csv.row fieldnames r !! Some k = Some None_.
Proof.
  intros H. unfold Csv.row.
  assert (Hlt : (length r < length fieldnames)%nat).
  { destruct (Nat.lt_ge_cases (length r) (length fieldnames)) as [?|Hge]; [assumption|].
    rewrite drop_ge in H by exact Hge. destruct (not_elem_of_nil _ H). }
  destruct (Nat.ltb_spec (length fieldnames) (length r)); [lia|].
  destruct (Nat.ltb_spec (length r) (length fieldnames)); [|lia].
  rewrite fill_restval_lookup, bool_decide_eq_true_2 by exact H. reflexivity.
Qed.

(** After the membership test, [row['Text']] is a string or [None]: the
    lookup itself cannot fail. *)
Lemma row_lookup_header (fieldnames : list str) (r : Csv.record) (k : str) :
  k ∈ fieldnames ->
  Csv.row fieldnames r !! Some k = Some None_ \/
  exists s, Csv.row fieldnames r !! Some k = Some (Str s).
Proof.
  intros Hin.
  destruct (decide (k ∈ drop (length r) fieldnames)) as [Hd|Hd].
  { left. apply row_missing_field. exact Hd. }
  right.
  assert (Ht : k ∈ take (length r) fieldnames).
  { rewrite <- (take_drop (length r) fieldnames) in Hin.
    apply elem_of_app in Hin as [?|?]; [assumption|contradiction]. }
  destruct (dict_zip_lookup fieldnames r ∅ k (or_introl Ht)) as [s Hs].
  exists s. unfold Csv.row.
  destruct (Nat.ltb_spec (length fieldnames) (length r)).
  - rewrite lookup_insert_ne by discriminate. exact Hs.
  - destruct (Nat.ltb_spec (length r) (length fieldnames)); [|exact Hs].
    rewrite fill_restval_lookup, bool_decide_eq_false_2 by exact Hd. exact Hs.
Qed.

Lemma rows_from_app (fieldnames : list str) (rs1 rs2 : list Csv.record) :
  Csv.rows_from fieldnames (rs1 ++ rs2) =
  Csv.rows_from fieldnames rs1 ++ Csv.rows_from fieldnames rs2.
Proof.
  induction rs1 as [|r rs1 IH]; simpl; [reflexivity|].
  destruct (Csv.is_blank r); simpl; rewrite IH; reflexivity.
Qed.

(* ------------------------------------------------------------------ *)
(** ** What the loops of the script compute *)

Lemma state_eta (st : state) :
  State (stdout st) (all_text st) (row_count st) (written st) = st.
Proof. destruct st; reflexivity. Qed.

Section ForEach.

Context {A : Type} (body : A -> M unit).

(** A loop over [l1 ++ l2] is the loop over [l1] followed by the one over
    [l2]; the second does not start when the first raised. *)
Lemma for_each_app (l1 l2 : list A) (st : state) :
  for_each (l1 ++ l2) body st = (for_each l1 body ;; for_each l2 body) st.
Proof.
  revert st. induction l1 as [|x l1 IH]; intros st; simpl.
  - reflexivity.
  - unfold bind. destruct (body x st) as [st' [[]|e]]; [|reflexivity].
    rewrite IH. reflexivity.
Qed.

(** Replacing one element of the list by another on which the body does the
    same leaves the loop as it is. *)
Lemma for_each_ext_at (l1 l2 : list A) (x y : A) (st : state) :
  (forall s, body x s = body y s) ->
  for_each (l1 ++ x :: l2) body st = for_each (l1 ++ y :: l2) body st.
Proof.
  intros Hxy. revert st. induction l1 as [|z l1 IH]; intros st; simpl.
  - unfold bind. rewrite Hxy. reflexivity.
  - unfold bind. destruct (body z st) as [s [[]|e]]; [apply IH|reflexivity].
Qed.

End ForEach.

Lemma extract_row_spec (d : Csv.dict) (st : state) :
  extract_row d st =
  match row_entries d with
  | Returned es =>
      (State (stdout st) (all_text st ++ es) (row_count st + length es) (written st),
       Returned tt)
  | Raised e => (st, Raised e)
  end.
Proof.
  unfold extract_row, row_entries, getitem, bind.
  destruct (d !! Some Text) as [[s| |l]|]; simpl; try reflexivity.
  destruct (strip s) as [|c t]; simpl.
  - rewrite app_nil_r, Nat.add_0_r, state_eta. reflexivity.
  - reflexivity.
Qed.

Lemma for_each_rows (rows : list Csv.dict) (st : state) :
  for_each rows extract_row st =
  (State (stdout st) (all_text st ++ (rows_effect rows).1)
         (row_count st + length (rows_effect rows).1) (written st),
   (rows_effect rows).2).
Proof.
  revert st. induction rows as [|d rows IH]; intros st; simpl.
  - rewrite app_nil_r, Nat.add_0_r, state_eta. reflexivity.
  - unfold bind. rewrite extract_row_spec.
    destruct (row_entries d) as [es|e]; simpl.
    + rewrite IH. destruct (rows_effect rows) as [es' o]; simpl.
      rewrite length_app, <- app_assoc, Nat.add_assoc. reflexivity.
    + rewrite app_nil_r, Nat.add_0_r, state_eta. reflexivity.
Qed.

Lemma process_file_spec (f : Glob.entry) (st : state) :
  exists rc,
    process_file f st =
    (State (stdout st ++ (file_effect f).1.1) (all_text st ++ (file_effect f).1.2)
           rc (written st),
     (file_effect f).2).
Proof.
  unfold process_file, file_effect, not_in, bind.
  destruct (Csv.fieldnames (reader f)) as [header|]; simpl.
  - destruct (bool_decide (Text ∈ header)); simpl.
    + rewrite for_each_rows; simpl.
      destruct (rows_effect (Csv.rows (reader f))) as [es [[]|e]]; simpl.
      * eexists. unfold print. simpl. rewrite <- app_assoc. reflexivity.
      * eexists. reflexivity.
    + eexists. unfold print. simpl. rewrite app_nil_r, <- app_assoc. reflexivity.
  - eexists. unfold print. simpl. rewrite app_nil_r. reflexivity.
Qed.

Lemma for_each_files (l : list Glob.entry) (st : state) :
  exists rc,
    for_each l process_file st =
    (State (stdout st ++ (files_effect l).1.1) (all_text st ++ (files_effect l).1.2)
           rc (written st),
     (files_effect l).2).
Proof.
  revert st. induction l as [|f l IH]; intros st; simpl.
  - exists (row_count st). rewrite !app_nil_r, state_eta. reflexivity.
  - unfold bind. destruct (process_file_spec f st) as [rc ->].
    destruct (file_effect f) as [[out es] [[]|e]]; simpl.
    + destruct (IH (State (stdout st ++ out) (all_text st ++ es) rc (written st)))
        as [rc' ->]. simpl.
      destruct (files_effect l) as [[out' es'] o]; simpl.
      exists rc'. rewrite <- !app_assoc. reflexivity.
    + exists rc. reflexivity.
Qed.

Lemma for_each_listed (l : list Glob.entry) (st : state) :
  for_each l (fun f => print (Listed (basename f))) st =
  (State (stdout st ++ List.map (fun f => Listed (basename f)) l)
         (all_text st) (row_count st) (written st), Returned tt).
Proof.
  revert st. induction l as [|f l IH]; intros st; simpl.
  - rewrite app_nil_r, state_eta. reflexivity.
  - unfold bind, print at 1. rewrite IH. simpl.
    rewrite <- app_assoc. reflexivity.
Qed.

(* ------------------------------------------------------------------ *)
(** ** Properties of a run *)

(** A run is the loop over the files from [files_loop_start], followed, if the
    loop raised nothing, by the join, the write and the summary. *)
Lemma run_files_loop (dir : Glob.directory) :
  run dir =
  match for_each (Glob.glob dir) process_file (files_loop_start dir) with
  | (s, Returned _) =>
      (State (stdout s ++ summary (join [space] (all_text s))) (all_text s)
             (row_count s) (Some (join [space] (all_text s))), Returned tt)
  | (s, Raised e) => (s, Raised e)
  end.
Proof.
  unfold run, main. cbv zeta. unfold bind at 1. unfold print at 1. simpl.
  unfold bind at 1. rewrite for_each_listed. simpl.
  unfold bind at 1. unfold set_all_text at 1. simpl.
  unfold bind at 1. unfold files_loop_start, listing.
  destruct (for_each (Glob.glob dir) process_file _) as [s [[]|e]]; [|reflexivity].
  unfold summary, bind, get_all_text, write_output, print. simpl.
  rewrite <- !app_assoc. reflexivity.
Qed.

(** A run in terms of the effect of the file loop: it prints the listing,
    processes the files and, unless a file raised, writes the joined entries
    and prints the summary. *)
Lemma run_spec (dir : Glob.directory) :
  exists rc,
    run dir =
    let csv_files := Glob.glob dir in
    let '(out, es, o) := files_effect csv_files in
    match o with
    | Returned _ =>
        (State (listing csv_files ++ out ++ summary (join [space] es)) es rc
               (Some (join [space] es)), Returned tt)
    | Raised e =>
        (State (listing csv_files ++ out) es rc None, Raised e)
    end.
Proof.
  rewrite run_files_loop. cbv zeta.
  destruct (for_each_files (Glob.glob dir) (files_loop_start dir)) as [rc ->].
  destruct (files_effect (Glob.glob dir)) as [[out es] [[]|e]]; simpl.
  - exists rc. rewrite <- app_assoc. reflexivity.
  - exists rc. reflexivity.
Qed.

(* ------------------------------------------------------------------ *)
(** ** The specification's statements *)

(** C1 (Scenario A).  When the only CSV file of the directory has header
    [Name,Text] and the data rows ("A","hello") and ("B","  world  "), the
    run completes, the entries are the trimmed values "hello" and "world",
    and the text written to merged_vocabulary.txt is exactly "hello world". *)
Theorem C1_scenario_A (dir : Glob.directory) (name : str) :
  Glob.glob dir = [(name, scenario_A_records)] ->
  exists st,
    run dir = (st, Returned tt) /\
    all_text st = [strip (u "hello"); strip (u "  world  ")] /\
    all_text st = [u "hello"; u "world"] /\
    written st = Some (u "hello world").
Proof.
  intros H. rewrite run_files_loop. unfold files_loop_start. rewrite H.
  eexists. vm_compute. repeat split; reflexivity.
Qed.

Lemma C1_scenario_A_witness :
  Glob.glob scenario_A_dir = [(u "transcript.csv", scenario_A_records)] /\
  exists st,
    run scenario_A_dir = (st, Returned tt) /\
    all_text st = [strip (u "hello"); strip (u "  world  ")] /\
    all_text st = [u "hello"; u "world"] /\
    written st = Some (u "hello world").
Proof.
  split; [reflexivity|].
  apply (C1_scenario_A scenario_A_dir (u "transcript.csv")). reflexivity.
Defined.

(** C3.  When the loop over the files reaches a file whose header row does
    not contain the field name [Text] (compared code point by code point), it
    prints the processing notice and the warning for that file, leaves
    [all_text] as it is, and goes on with the remaining files. *)
Theorem C3_missing_column_skipped
    (name : str) (header : Csv.record) (records : list Csv.record)
    (rest : list Glob.entry) (st : state) :
  Text ∉ header ->
  for_each ((name, header :: records) :: rest) process_file st =
  for_each rest process_file
    (State (stdout st ++ [Processing name; WarningNoText])
           (all_text st) (row_count st) (written st)).
Proof.
  intros Hnot. simpl. unfold bind at 1. unfold process_file.
  unfold bind, print, not_in, reader, basename. simpl.
  rewrite bool_decide_eq_false_2 by exact Hnot. simpl.
  rewrite <- app_assoc. reflexivity.
Qed.

Lemma C3_missing_column_skipped_witness :
  (Text ∉ [u "Name"; u "text"]) /\
  for_each [lowercase_header_file; (u "new.csv", scenario_A_records)]
           process_file initial =
  for_each [(u "new.csv", scenario_A_records)] process_file
    (State [Processing (u "old.csv"); WarningNoText] [] 0 None).
Proof.
  assert (H : Text ∉ [u "Name"; u "text"]).
  { apply (bool_decide_unpack _). vm_compute. exact I. }
  split; [exact H|].
  exact (C3_missing_column_skipped (u "old.csv") [u "Name"; u "text"]
           [[u "A"; u "lost"]] [(u "new.csv", scenario_A_records)] initial H).
Defined.

(** C5 (Scenario E).  When no entry of the directory matches [*.csv], the run
    completes, writes the empty string to merged_vocabulary.txt, and reports
    0 files, 0 characters and 0 words. *)
Theorem C5_no_csv_files (dir : Glob.directory) :
  Glob.glob dir = [] ->
  run dir =
  (State [Found 0; Written output_file; TotalCharacters 0; TotalWords 0]
         [] 0 (Some []), Returned tt).
Proof.
  intros H. unfold run, main. rewrite H. reflexivity.
Qed.

Lemma C5_no_csv_files_witness :
  Glob.glob no_csv_dir = [] /\
  run no_csv_dir =
  (State [Found 0; Written output_file; TotalCharacters 0; TotalWords 0]
         [] 0 (Some []), Returned tt).
Proof.
  split; [reflexivity|]. apply C5_no_csv_files. reflexivity.
Defined.

(** C9.  A file with no record at all has [fieldnames = None]; the membership
    test of line 29 then raises TypeError.  If the files found before it were
    processed without an exception, the run ends there with that TypeError:
    the last line printed is the processing notice of the empty file (no
    warning), no later file is processed and nothing is written. *)
Theorem C9_empty_file_raises_TypeError
    (dir : Glob.directory) (before after : list Glob.entry) (name : str)
    (st : state) :
  Glob.glob dir = before ++ (name, []) :: after ->
  for_each before process_file (files_loop_start dir) = (st, Returned tt) ->
  Csv.fieldnames (reader (name, [])) = None /\
  run dir =
  (State (stdout st ++ [Processing name]) (all_text st) (row_count st) None,
   Raised TypeError).
Proof.
  intros Hglob Hbefore. split; [reflexivity|].
  rewrite run_files_loop, Hglob, for_each_app.
  unfold bind at 1. rewrite Hbefore. simpl.
  destruct (for_each_files before (files_loop_start dir)) as [rc Hrc].
  rewrite Hbefore in Hrc. injection Hrc as Hst _.
  assert (Hw : written st = None) by (rewrite Hst; reflexivity).
  rewrite Hw. reflexivity.
Qed.

Lemma C9_empty_file_raises_TypeError_witness :
  run empty_file_dir =
  (State [Found 3; Listed (u "first.csv"); Listed (u "empty.csv");
          Listed (u "last.csv"); Processing (u "first.csv"); Extracted 2;
          Processing (u "empty.csv")]
         [u "hello"; u "world"] 2 None,
   Raised TypeError).
Proof.
  refine (proj2 (C9_empty_file_raises_TypeError empty_file_dir
            [(u "first.csv", scenario_A_records)]
            [(u "last.csv", scenario_A_records)] (u "empty.csv")
            (State [Found 3; Listed (u "first.csv"); Listed (u "empty.csv");
                    Listed (u "last.csv"); Processing (u "first.csv");
                    Extracted 2]
                   [u "hello"; u "world"] 2 None) _ _)).
  - reflexivity.
  - vm_compute. reflexivity.
Defined.

(** C10.  In a file whose header contains [Text], a non-blank record with
    fewer fields than the header, such that [Text] is among the field names
    left without a value, gets [None] for [Text]; [.strip()] on it raises
    AttributeError.  If the files before it and the rows before it were
    processed without an exception, the run ends there with that
    AttributeError: the row is neither skipped nor taken as empty, and
    nothing is written. *)
Theorem C10_short_row_raises_AttributeError
    (dir : Glob.directory) (before after : list Glob.entry) (name : str)
    (header r : Csv.record) (pre post : list Csv.record) (st st' : state) :
  Glob.glob dir = before ++ (name, header :: pre ++ r :: post) :: after ->
  r <> [] ->
  Text ∈ drop (length r) header ->
  for_each before process_file (files_loop_start dir) = (st, Returned tt) ->
  for_each (Csv.rows_from header pre) extract_row
    (State (stdout st ++ [Processing name]) (all_text st) 0 (written st)) =
  (st', Returned tt) ->
  Csv.row header r !! Some Text = Some None_ /\
  run dir = (st', Raised AttributeError) /\
  written st' = None.
Proof.
  intros Hglob Hr Hin Hbefore Hpre.
  assert (Hnone : Csv.row header r !! Some Text = Some None_)
    by (apply row_missing_field; exact Hin).
  assert (Hhdr : Text ∈ header).
  { rewrite <- (take_drop (length r) header). apply elem_of_app. right. exact Hin. }
  assert (Hw : written st' = None).
  { destruct (for_each_files before (files_loop_start dir)) as [rc Hrc].
    rewrite Hbefore in Hrc. injection Hrc as Hst _.
    rewrite for_each_rows in Hpre. injection Hpre as Hst' _.
    rewrite <- Hst'. simpl. rewrite Hst. reflexivity. }
  split; [exact Hnone|]. split; [|exact Hw].
  assert (Hfile : process_file (name, header :: pre ++ r :: post) st =
                  (st', Raised AttributeError)).
  { unfold process_file, reader, basename, not_in.
    cbn [fst snd Csv.fieldnames Csv.rows].
    rewrite bool_decide_eq_true_2 by exact Hhdr.
    unfold bind, print, set_row_count, ret.
    cbn [negb stdout all_text row_count written].
    rewrite rows_from_app, for_each_app. unfold bind. rewrite Hpre.
    destruct r as [|v vs]; [congruence|].
    cbn [Csv.rows_from Csv.is_blank for_each].
    unfold bind. rewrite extract_row_spec. unfold row_entries.
    rewrite Hnone. reflexivity. }
  rewrite run_files_loop, Hglob, for_each_app.
  unfold bind at 1. rewrite Hbefore. cbn [for_each].
  unfold bind at 1. rewrite Hfile. reflexivity.
Qed.

Lemma C10_short_row_raises_AttributeError_witness :
  Csv.row [u "Name"; u "Text"] [u "B"] !! Some Text = Some None_ /\
  run short_row_dir =
  (State [Found 1; Listed (u "short.csv"); Processing (u "short.csv")]
         [u "kept"] 1 None,
   Raised AttributeError) /\
  written (State [Found 1; Listed (u "short.csv"); Processing (u "short.csv")]
                 [u "kept"] 1 None) = None.
Proof.
  refine (C10_short_row_raises_AttributeError short_row_dir [] []
            (u "short.csv") [u "Name"; u "Text"] [u "B"]
            [[u "A"; u "kept"]] [[u "C"; u "never read"]]
            (State [Found 1; Listed (u "short.csv")] [] 0 None) _ _ _ _ _ _).
  - reflexivity.
  - discriminate.
  - apply (bool_decide_unpack _). vm_compute. exact I.
  - reflexivity.
  - vm_compute. reflexivity.
Defined.

(** A row whose [Text] value is empty or whitespace leaves the state alone. *)
Lemma extract_row_blank_text (d : Csv.dict) (s : str) (st : state) :
  d !! Some Text = Some (Str s) ->
  forallb isspace s = true ->
  extract_row d st = (st, Returned tt).
Proof.
  intros Hd Hs. rewrite extract_row_spec. unfold row_entries.
  rewrite Hd, (strip_all_space s Hs). simpl.
  rewrite app_nil_r, Nat.add_0_r, state_eta. reflexivity.
Qed.

Lemma process_file_without_row
    (name : str) (header r : Csv.record) (pre post : list Csv.record)
    (s : str) (st : state) :
  Csv.row header r !! Some Text = Some (Str s) ->
  forallb isspace s = true ->
  process_file (name, header :: pre ++ r :: post) st =
  process_file (name, header :: pre ++ post) st.
Proof.
  intros Hd Hs.
  unfold process_file, reader, basename, not_in.
  cbn [fst snd Csv.fieldnames Csv.rows].
  destruct (bool_decide (Text ∈ header)); [|reflexivity].
  unfold bind, print, set_row_count, ret.
  cbn [negb stdout all_text row_count written].
  rewrite !rows_from_app, !for_each_app. unfold bind.
  destruct (for_each (Csv.rows_from header pre) extract_row _) as [s1 [[]|e]];
    [|reflexivity].
  destruct r as [|v vs]; [reflexivity|].
  cbn [Csv.rows_from Csv.is_blank for_each]. unfold bind.
  rewrite (extract_row_blank_text _ s s1 Hd Hs). reflexivity.
Qed.

(** C4 (Scenario D).  A data row whose [Text] value is the empty string or
    only whitespace leaves the state of the row loop as it is (no entry, no
    count), and the whole run, with its output file and its per-file counts,
    is the run on the same directory with that row removed. *)
Theorem C4_blank_text_row_contributes_nothing
    (dir1 dir2 : Glob.directory) (name : str) (header r : Csv.record)
    (pre post : list Csv.record) (s : str) :
  Csv.row header r !! Some Text = Some (Str s) ->
  forallb isspace s = true ->
  (forall st, extract_row (Csv.row header r) st = (st, Returned tt)) /\
  run (dir1 ++ (name, header :: pre ++ r :: post) :: dir2) =
  run (dir1 ++ (name, header :: pre ++ post) :: dir2).
Proof.
  intros Hd Hs. split.
  { intros st. exact (extract_row_blank_text _ s st Hd Hs). }
  rewrite !run_files_loop. unfold files_loop_start, Glob.glob.
  rewrite !List.filter_app. cbn [List.filter fst].
  destruct (Glob.matches name); [|reflexivity].
  unfold listing. rewrite !length_app, !List.map_app. cbn [length List.map basename fst].
  rewrite for_each_ext_at with (y := (name, header :: pre ++ post)); [reflexivity|].
  intros st. exact (process_file_without_row name header r pre post s st Hd Hs).
Qed.

Lemma C4_blank_text_row_contributes_nothing_witness :
  (forall st,
     extract_row (Csv.row [u "Text"] [[9; 32; 0xA0; 0x3000]]) st = (st, Returned tt)) /\
  run blank_rows_dir =
  run [ (u "a.csv", [ [u "Text"]; [u "kept"]; [u "also kept"] ]) ].
Proof.
  refine (C4_blank_text_row_contributes_nothing [] [] (u "a.csv") [u "Text"]
            [[9; 32; 0xA0; 0x3000]] [[u "kept"]] [[u "also kept"]]
            [9; 32; 0xA0; 0x3000] _ _).
  - vm_compute. reflexivity.
  - reflexivity.
Defined.

Lemma rows_effect_entries (rows : list Csv.dict) :
  (rows_effect rows).2 = Returned tt ->
  (rows_effect rows).1 = omap entry_of_row rows.
Proof.
  induction rows as [|d rows IH]; simpl; [reflexivity|].
  unfold row_entries, entry_of_row.
  destruct (d !! Some Text) as [[s| |l]|]; simpl; try discriminate.
  destruct (rows_effect rows) as [es o]; simpl in *.
  intros Ho. rewrite (IH Ho). destruct (strip s); reflexivity.
Qed.

Lemma file_effect_entries (f : Glob.entry) :
  (file_effect f).2 = Returned tt ->
  (file_effect f).1.2 = text_entries (reader f).
Proof.
  unfold file_effect, text_entries.
  destruct (Csv.fieldnames (reader f)) as [header|]; [|discriminate].
  destruct (bool_decide (Text ∈ header)); [|reflexivity].
  pose proof (rows_effect_entries (Csv.rows (reader f))) as H.
  destruct (rows_effect (Csv.rows (reader f))) as [es o]; simpl in *.
  exact H.
Qed.

Lemma file_effect_extracted (f : Glob.entry) :
  (file_effect f).2 = Returned tt ->
  extracted_messages (file_effect f).1.1 = if has_text_header f then 1%nat else 0%nat.
Proof.
  unfold file_effect, has_text_header.
  destruct (Csv.fieldnames (reader f)) as [header|]; [|discriminate].
  destruct (bool_decide (Text ∈ header)); [|reflexivity].
  destruct (rows_effect (Csv.rows (reader f))) as [es [[]|e]]; simpl;
    [reflexivity|discriminate].
Qed.

Lemma extracted_messages_app (out1 out2 : list line) :
  extracted_messages (out1 ++ out2) =
  (extracted_messages out1 + extracted_messages out2)%nat.
Proof. unfold extracted_messages. rewrite List.filter_app, length_app. reflexivity. Qed.

Lemma files_effect_entries (l : list Glob.entry) :
  (files_effect l).2 = Returned tt ->
  (files_effect l).1.2 = concat (List.map (fun f => text_entries (reader f)) l).
Proof.
  induction l as [|f l IH]; simpl; [reflexivity|].
  pose proof (file_effect_entries f) as Hf.
  destruct (file_effect f) as [[out es] [[]|e]]; simpl in *; [|discriminate].
  destruct (files_effect l) as [[out' es'] o]; simpl in *.
  intros Ho. rewrite (IH Ho), (Hf eq_refl). reflexivity.
Qed.

Lemma files_effect_extracted (l : list Glob.entry) :
  (files_effect l).2 = Returned tt ->
  extracted_messages (files_effect l).1.1 = length (List.filter has_text_header l).
Proof.
  induction l as [|f l IH]; simpl; [reflexivity|].
  pose proof (file_effect_extracted f) as Hf.
  destruct (file_effect f) as [[out es] [[]|e]]; simpl in *; [|discriminate].
  destruct (files_effect l) as [[out' es'] o]; simpl in *.
  intros Ho. rewrite extracted_messages_app, (IH Ho), (Hf eq_refl).
  destruct (has_text_header f); reflexivity.
Qed.

Lemma listing_extracted (l : list Glob.entry) : extracted_messages (listing l) = 0%nat.
Proof.
  unfold listing, extracted_messages. simpl.
  induction l as [|f l IH]; simpl; [reflexivity|exact IH].
Qed.

Lemma row_entries_trimmed (d : Csv.dict) (es : list str) :
  row_entries d = Returned es -> Forall trimmed es.
Proof.
  unfold row_entries.
  destruct (d !! Some Text) as [[s| |l]|]; try discriminate.
  intros [= <-]. destruct (strip s) as [|c t] eqn:E; simpl; constructor; [|constructor].
  rewrite <- E. split; [rewrite E; discriminate|].
  split; [apply strip_head|apply strip_last].
Qed.

Lemma rows_effect_trimmed (rows : list Csv.dict) :
  Forall trimmed (rows_effect rows).1.
Proof.
  induction rows as [|d rows IH]; simpl; [constructor|].
  pose proof (row_entries_trimmed d) as Hd.
  destruct (row_entries d) as [es|e]; simpl; [|constructor].
  destruct (rows_effect rows) as [es' o]; simpl in *.
  apply Forall_app. split; [apply Hd; reflexivity|exact IH].
Qed.

Lemma file_effect_trimmed (f : Glob.entry) : Forall trimmed (file_effect f).1.2.
Proof.
  unfold file_effect.
  destruct (Csv.fieldnames (reader f)) as [header|]; [|constructor].
  destruct (bool_decide (Text ∈ header)); [|constructor].
  pose proof (rows_effect_trimmed (Csv.rows (reader f))) as H.
  destruct (rows_effect (Csv.rows (reader f))) as [es o]; simpl in *. exact H.
Qed.

Lemma files_effect_trimmed (l : list Glob.entry) : Forall trimmed (files_effect l).1.2.
Proof.
  induction l as [|f l IH]; simpl; [constructor|].
  pose proof (file_effect_trimmed f) as Hf.
  destruct (file_effect f) as [[out es] [[]|e]]; simpl in *; [|exact Hf].
  destruct (files_effect l) as [[out' es'] o]; simpl in *.
  apply Forall_app. split; assumption.
Qed.

(** A run that returns: its state in terms of the effect of the file loop. *)
Lemma run_returned (dir : Glob.directory) (st : state) :
  run dir = (st, Returned tt) ->
  (files_effect (Glob.glob dir)).2 = Returned tt /\
  all_text st = (files_effect (Glob.glob dir)).1.2 /\
  written st = Some (join [space] (all_text st)) /\
  stdout st = listing (Glob.glob dir) ++ (files_effect (Glob.glob dir)).1.1
              ++ summary (join [space] (all_text st)).
Proof.
  destruct (run_spec dir) as [rc ->]. cbv zeta.
  destruct (files_effect (Glob.glob dir)) as [[out es] [[]|e]]; simpl;
    [|discriminate].
  intros [= <-]. simpl. repeat split; reflexivity.
Qed.

Lemma run_raised_unwritten (dir : Glob.directory) (st : state) (e : exn) :
  run dir = (st, Raised e) -> written st = None.
Proof.
  destruct (run_spec dir) as [rc ->]. cbv zeta.
  destruct (files_effect (Glob.glob dir)) as [[out es] [[]|e']]; simpl;
    [discriminate|].
  intros [= <- _]. reflexivity.
Qed.

(** C2 (Scenario C).  Whatever a run writes to the output file is the join of
    the text entries of the files in discovery order, each file's entries in
    row order: the entries of an earlier file all precede those of a later
    file.  Two files yielding ["foo","bar"] and ["baz"] give "foo bar baz". *)
Theorem C2_file_then_row_order
    (dir : Glob.directory) (st : state) (o : outcome unit) (merged : str) :
  run dir = (st, o) ->
  written st = Some merged ->
  all_text st = concat (List.map (fun f => text_entries (reader f)) (Glob.glob dir)) /\
  merged = join [space] (all_text st) /\
  (forall f1 f2,
     Glob.glob dir = [f1; f2] ->
     text_entries (reader f1) = [u "foo"; u "bar"] ->
     text_entries (reader f2) = [u "baz"] ->
     merged = u "foo bar baz").
Proof.
  intros Hrun Hw.
  destruct o as [[]|e]; [|rewrite (run_raised_unwritten _ _ _ Hrun) in Hw; discriminate].
  destruct (run_returned dir st Hrun) as (Hret & Hall & Hwr & _).
  rewrite Hwr in Hw. injection Hw as <-.
  assert (Hes : all_text st =
                concat (List.map (fun f => text_entries (reader f)) (Glob.glob dir))).
  { rewrite Hall. apply files_effect_entries. exact Hret. }
  split; [exact Hes|]. split; [reflexivity|].
  intros f1 f2 Hglob H1 H2. rewrite Hes, Hglob. simpl. rewrite H1, H2. reflexivity.
Qed.

Lemma C2_file_then_row_order_witness :
  run scenario_C_dir = (scenario_C_final, Returned tt) /\
  written scenario_C_final = Some (u "foo bar baz") /\
  all_text scenario_C_final =
    concat (List.map (fun f => text_entries (reader f)) (Glob.glob scenario_C_dir)) /\
  u "foo bar baz" = join [space] (all_text scenario_C_final).
Proof.
  assert (Hrun : run scenario_C_dir = (scenario_C_final, Returned tt))
    by (vm_compute; reflexivity).
  assert (Hw : written scenario_C_final = Some (u "foo bar baz"))
    by (vm_compute; reflexivity).
  destruct (C2_file_then_row_order scenario_C_dir scenario_C_final
              (Returned tt) (u "foo bar baz") Hrun Hw) as (H1 & H2 & _).
  repeat split; assumption.
Defined.

(** C6, as stated, fails on a run that an exception ends: a file with the
    [Text] field and a short row gets no "Extracted" line. *)
Lemma C6_counterexample :
  extracted_messages (stdout (run short_row_dir).1) <>
  length (List.filter has_text_header (Glob.glob short_row_dir)).
Proof. vm_compute. discriminate. Qed.

(** C6, amended.  On every run that completes without an exception, the
    number of "Extracted" lines printed equals the number of discovered files
    whose header contains the field [Text]. *)
Theorem C6_extracted_messages_count (dir : Glob.directory) (st : state) :
  run dir = (st, Returned tt) ->
  extracted_messages (stdout st) =
  length (List.filter has_text_header (Glob.glob dir)).
Proof.
  intros Hrun.
  destruct (run_returned dir st Hrun) as (Hret & _ & _ & Hout).
  rewrite Hout, !extracted_messages_app, listing_extracted.
  rewrite (files_effect_extracted _ Hret).
  change (extracted_messages (summary _)) with 0%nat. lia.
Qed.

Lemma C6_extracted_messages_count_witness :
  run mixed_dir = (mixed_final, Returned tt) /\
  extracted_messages (stdout mixed_final) =
  length (List.filter has_text_header (Glob.glob mixed_dir)).
Proof.
  assert (Hrun : run mixed_dir = (mixed_final, Returned tt))
    by (vm_compute; reflexivity).
  split; [exact Hrun|].
  exact (C6_extracted_messages_count mixed_dir mixed_final Hrun).
Defined.

(** C7.  On every run that completes, the entries are non-empty and have no
    whitespace at either end (they were trimmed), the output is their join,
    and in it: every occurrence of two consecutive spaces lies inside one
    entry; two consecutive entries are separated by the one space of the
    separator, the first ending and the second starting with a non-space
    character; the output neither starts nor ends with whitespace. *)
Theorem C7_single_space_separators (dir : Glob.directory) (st : state) :
  run dir = (st, Returned tt) ->
  Forall trimmed (all_text st) /\
  written st = Some (join [space] (all_text st)) /\
  (forall pre post,
     join [space] (all_text st) = pre ++ space :: space :: post ->
     exists es1 e es2 a b,
       all_text st = es1 ++ e :: es2 /\
       e = a ++ space :: space :: b /\
       pre = with_separators [space] es1 ++ a /\
       post = b ++ match es2 with [] => [] | _ :: _ => space :: join [space] es2 end) /\
  (forall es1 e1 e2 es2,
     all_text st = es1 ++ e1 :: e2 :: es2 ->
     join [space] (all_text st) =
       with_separators [space] es1 ++ e1 ++ [space] ++ join [space] (e2 :: es2) /\
     last e1 <> Some space /\ last e1 <> None /\
     head (join [space] (e2 :: es2)) <> Some space /\
     head (join [space] (e2 :: es2)) <> None) /\
  no_outer_space (join [space] (all_text st)).
Proof.
  intros Hrun.
  destruct (run_returned dir st Hrun) as (_ & Hall & Hwr & _).
  assert (Htr : Forall trimmed (all_text st))
    by (rewrite Hall; apply files_effect_trimmed).
  split; [exact Htr|]. split; [exact Hwr|].
  split; [intros pre post; apply join_double_space; exact Htr|].
  split.
  - intros es1 e1 e2 es2 Hes. rewrite Hes in Htr |- *.
    apply Forall_app in Htr as [_ Htr].
    apply Forall_cons in Htr as [[Hne1 [_ Hl1]] Htr].
    apply Forall_cons in Htr as [[Hne2 [Hh2 _]] _].
    split.
    { rewrite join_app by discriminate. rewrite join_cons by discriminate.
      reflexivity. }
    rewrite join_head by exact Hne2.
    repeat split.
    + intros H. specialize (Hl1 _ H). rewrite isspace_space in Hl1. discriminate.
    + destruct e1 using rev_ind; [congruence|]. rewrite last_snoc. discriminate.
    + intros H. specialize (Hh2 _ H). rewrite isspace_space in Hh2. discriminate.
    + destruct e2; [congruence|discriminate].
  - destruct (all_text st) as [|e es] using rev_ind; [split; discriminate|].
    clear IHes. split.
    + destruct es as [|e0 es].
      * apply Forall_cons in Htr as [[_ [Hh _]] _]. exact Hh.
      * change ((e0 :: es) ++ [e]) with (e0 :: (es ++ [e])).
        apply Forall_cons in Htr as [[Hne [Hh _]] _].
        rewrite join_head by exact Hne. exact Hh.
    + apply Forall_app in Htr as [_ Htr].
      apply Forall_cons in Htr as [[Hne [_ Hl]] _].
      rewrite join_last by exact Hne. exact Hl.
Qed.

Lemma C7_single_space_separators_witness :
  run inner_spaces_dir = (inner_spaces_final, Returned tt) /\
  Forall trimmed (all_text inner_spaces_final) /\
  no_outer_space (join [space] (all_text inner_spaces_final)).
Proof.
  assert (Hrun : run inner_spaces_dir = (inner_spaces_final, Returned tt))
    by (vm_compute; reflexivity).
  destruct (C7_single_space_separators inner_spaces_dir inner_spaces_final Hrun)
    as (Htr & _ & _ & _ & Hno).
  split; [exact Hrun|]. split; [exact Htr|exact Hno].
Defined.

(** The output file is not among the files a later run discovers. *)
Lemma glob_inputs (dir : Glob.directory) : Glob.glob (inputs dir) = Glob.glob dir.
Proof.
  unfold Glob.glob, inputs. induction dir as [|e dir IH]; [reflexivity|].
  cbn [List.filter]. unfold is_output at 1.
  destruct (decide (e.1 = output_file)) as [He|He].
  - rewrite bool_decide_eq_true_2 by exact He. cbn [negb].
    rewrite He. change (Glob.matches output_file) with false. exact IH.
  - rewrite bool_decide_eq_false_2 by exact He. cbn [negb List.filter].
    rewrite IH. reflexivity.
Qed.

(** C8, as stated, fails when the same set of files is discovered in another
    order: the two listings hold the same files with the same contents, and
    the runs write different texts. *)
Lemma C8_counterexample :
  Permutation order_dir_1 order_dir_2 /\
  written (run order_dir_1).1 = Some (u "alpha beta") /\
  written (run order_dir_2).1 = Some (u "beta alpha") /\
  written (run order_dir_1).1 <> written (run order_dir_2).1.
Proof.
  split; [apply perm_swap|].
  split; [vm_compute; reflexivity|].
  split; [vm_compute; reflexivity|].
  vm_compute. discriminate.
Qed.

(** C8, amended.  Two runs over listings of the directory that agree, in the
    same order, on every entry other than merged_vocabulary.txt (as before
    and after a run of the script) discover the same files in the same order,
    behave alike and write the same text. *)
Theorem C8_same_listing_same_output (dir dir' : Glob.directory) :
  inputs dir = inputs dir' ->
  Glob.glob dir = Glob.glob dir' /\
  run dir = run dir' /\
  written (run dir).1 = written (run dir').1.
Proof.
  intros H.
  assert (Hg : Glob.glob dir = Glob.glob dir')
    by (rewrite <- (glob_inputs dir), <- (glob_inputs dir'), H; reflexivity).
  assert (Hr : run dir = run dir') by (unfold run, main; rewrite Hg; reflexivity).
  split; [exact Hg|]. split; [exact Hr|]. rewrite Hr. reflexivity.
Qed.

Lemma C8_same_listing_same_output_witness :
  inputs order_dir_1 = inputs order_dir_1_after /\
  Glob.glob order_dir_1 = Glob.glob order_dir_1_after /\
  run order_dir_1 = run order_dir_1_after /\
  written (run order_dir_1).1 = written (run order_dir_1_after).1.
Proof.
  assert (H : inputs order_dir_1 = inputs order_dir_1_after)
    by (vm_compute; reflexivity).
  split; [exact H|].
  exact (C8_same_listing_same_output order_dir_1 order_dir_1_after H).
Defined.

(* ------------------------------------------------------------------ *)
(** ** Further properties: how a run ends *)

(** After the membership test, a record that leaves no [Text] column without
    a value gives [row['Text']] a string. *)
Lemma row_lookup_present (fieldnames : list str) (r : Csv.record) (k : str) :
  k ∈ fieldnames ->
  k ∉ drop (length r) fieldnames ->
  exists s, Csv.row fieldnames r !! Some k = Some (Str s).
Proof.
  intros Hin Hd.
  assert (Ht : k ∈ take (length r) fieldnames).
  { rewrite <- (take_drop (length r) fieldnames) in Hin.
    apply elem_of_app in Hin as [?|?]; [assumption|contradiction]. }
  destruct (dict_zip_lookup fieldnames r ∅ k (or_introl Ht)) as [s Hs].
  exists s. unfold Csv.row.
  destruct (Nat.ltb_spec (length fieldnames) (length r)).
  - rewrite lookup_insert_ne by discriminate. exact Hs.
  - destruct (Nat.ltb_spec (length r) (length fieldnames)); [|exact Hs].
    rewrite fill_restval_lookup, bool_decide_eq_false_2 by exact Hd. exact Hs.
Qed.

Lemma rows_effect_outcome (header : Csv.record) (records : list Csv.record) :
  Text ∈ header ->
  (rows_effect (Csv.rows_from header records)).2 =
  if forallb (row_ok header) records then Returned tt else Raised AttributeError.
Proof.
  intros Hin. induction records as [|r records IH]; [reflexivity|].
  cbn [Csv.rows_from forallb]. unfold row_ok at 1.
  destruct r as [|v vs]; [exact IH|]. cbn [Csv.is_blank orb rows_effect].
  unfold row_entries.
  destruct (decide (Text ∈ drop (length (v :: vs)) header)) as [Hd|Hd].
  - rewrite (row_missing_field _ _ _ Hd), bool_decide_eq_true_2 by exact Hd.
    reflexivity.
  - destruct (row_lookup_present header (v :: vs) Text Hin Hd) as [s ->].
    rewrite bool_decide_eq_false_2 by exact Hd. cbn [negb andb].
    destruct (rows_effect (Csv.rows_from header records)) as [es o].
    exact IH.
Qed.

Lemma file_effect_outcome (f : Glob.entry) :
  (file_effect f).2 =
  if file_ok f then Returned tt
  else Raised (match reader f with [] => TypeError | _ :: _ => AttributeError end).
Proof.
  unfold file_effect, file_ok, Csv.fieldnames, Csv.rows.
  destruct (reader f) as [|header records]; [reflexivity|].
  destruct (decide (Text ∈ header)) as [Hin|Hin].
  - rewrite bool_decide_eq_true_2 by exact Hin.
    pose proof (rows_effect_outcome header records Hin) as H.
    destruct (rows_effect (Csv.rows_from header records)) as [es o].
    exact H.
  - rewrite bool_decide_eq_false_2 by exact Hin. reflexivity.
Qed.

Lemma files_effect_outcome (l : list Glob.entry) :
  (files_effect l).2 =
  match first_failure l with
  | None => Returned tt
  | Some e => Raised e
  end.
Proof.
  unfold first_failure. induction l as [|f l IH]; [reflexivity|].
  cbn [files_effect List.find].
  pose proof (file_effect_outcome f) as Hf.
  destruct (file_effect f) as [[out es] o]. cbn [snd] in Hf. subst o.
  destruct (file_ok f); cbn [negb].
  - destruct (files_effect l) as [[out' es'] o']. exact IH.
  - reflexivity.
Qed.

Lemma run_outcome (dir : Glob.directory) :
  (run dir).2 = (files_effect (Glob.glob dir)).2.
Proof.
  destruct (run_spec dir) as [rc ->]. cbv zeta.
  destruct (files_effect (Glob.glob dir)) as [[out es] [[]|e]]; reflexivity.
Qed.





(* ------------------------------------------------------------------ *)
(** ** Further properties: the summary statistics *)

Lemma length_join (sep : str) (es : list str) :
  length (join sep es) =
  (sum_list (length <$> es) + (length es - 1) * length sep)%nat.
Proof.
  induction es as [|e es IH]; [reflexivity|].
  destruct es as [|e' es].
  - simpl. lia.
  - rewrite join_cons by discriminate. rewrite !length_app, IH.
    cbn [fmap list_fmap sum_list sum_list_with length]. unfold id.
    rewrite !Nat.sub_succ, !Nat.sub_0_r. cbn [Nat.mul]. lia.
Qed.

(** A whitespace character ends the word being read: what follows it is
    split on its own. *)
Lemma split_from_app_space (w a b : str) (c : N) :
  isspace c = true ->
  split_from w (a ++ c :: b) = split_from w a ++ split b.
Proof.
  intros Hc. revert w. induction a as [|d a IH]; intros w.
  - cbn [app split_from]. rewrite Hc. destruct w; reflexivity.
  - cbn [app split_from]. destruct (isspace d).
    + destruct w; rewrite IH; reflexivity.
    + apply IH.
Qed.

Lemma split_join (es : list str) :
  split (join [space] es) = concat (split <$> es).
Proof.
  induction es as [|e es IH]; [reflexivity|].
  destruct es as [|e' es].
  - cbn. rewrite app_nil_r. reflexivity.
  - rewrite join_cons by discriminate. unfold split at 1.
    cbn [app]. rewrite split_from_app_space by apply isspace_space.
    rewrite IH. reflexivity.
Qed.

Lemma split_from_nil_inv (w s : str) :
  split_from w s = [] -> w = [] /\ forallb isspace s = true.
Proof.
  revert w. induction s as [|c s IH]; intros w; cbn [split_from forallb].
  - destruct w; [split; reflexivity|discriminate].
  - destruct (isspace c).
    + destruct w; [apply IH|discriminate].
    + intros H. destruct (IH _ H) as [Hw _]. discriminate.
Qed.

Lemma trimmed_words (e : str) : trimmed e -> (1 <= words e)%nat.
Proof.
  intros [Hne [Hh _]]. unfold words.
  destruct (split e) as [|x l] eqn:E; [|simpl; lia].
  exfalso. apply split_from_nil_inv in E as [_ E].
  destruct e as [|c e]; [congruence|].
  simpl in E. rewrite (Hh c eq_refl) in E. discriminate.
Qed.

Lemma words_join (es : list str) :
  words (join [space] es) = sum_list (words <$> es).
Proof.
  unfold words. rewrite split_join.
  induction es as [|e es IH]; [reflexivity|].
  cbn [fmap list_fmap concat sum_list sum_list_with] in *.
  rewrite length_app, IH. reflexivity.
Qed.

Lemma trimmed_words_sum (es : list str) :
  Forall trimmed es -> (length es <= sum_list (words <$> es))%nat.
Proof.
  induction 1 as [|e es He _ IH]; [reflexivity|].
  rewrite fmap_cons. cbn [length].
  change (sum_list (?x :: ?l)) with (x + sum_list l)%nat.
  pose proof (trimmed_words e He). lia.
Qed.

(** X3.  On a run that returns, the console ends with the three summary
    lines, and the character count reported is the sum of the lengths of the
    entries plus one separator between consecutive entries; it is also the
    length of the text written. *)
Theorem X3_total_characters (dir : Glob.directory) (st : state) :
  run dir = (st, Returned tt) ->
  exists out w,
    stdout st =
      out ++ [Written output_file;
              TotalCharacters (sum_list (length <$> all_text st)
                               + (length (all_text st) - 1));
              TotalWords w] /\
    written st =
      Some (join [space] (all_text st)) /\
    length (join [space] (all_text st)) =
      (sum_list (length <$> all_text st) + (length (all_text st) - 1))%nat.
Proof.
  intros Hrun. destruct (run_returned dir st Hrun) as (_ & _ & Hw & Hout).
  pose proof (length_join [space] (all_text st)) as Hlen.
  cbn [length] in Hlen. rewrite Nat.mul_1_r in Hlen.
  exists (listing (Glob.glob dir) ++ (files_effect (Glob.glob dir)).1.1).
  exists (length (split (join [space] (all_text st)))).
  split; [|split; [exact Hw|exact Hlen]].
  rewrite Hout, <- app_assoc. unfold summary. rewrite Hlen. reflexivity.
Qed.

(** X4.  On a run that returns, the word count reported is the sum of the
    word counts of the entries (joining with a space neither merges nor
    splits words); each entry has at least one word, so the count is at
    least the number of entries and is 0 only when there is no entry. *)
Theorem X4_total_words (dir : Glob.directory) (st : state) :
  run dir = (st, Returned tt) ->
  exists out c,
    stdout st =
      out ++ [Written output_file; TotalCharacters c;
              TotalWords (sum_list (words <$> all_text st))] /\
    (length (all_text st) <= sum_list (words <$> all_text st))%nat /\
    (sum_list (words <$> all_text st) = 0%nat <-> all_text st = []).
Proof.
  intros Hrun. destruct (run_returned dir st Hrun) as (_ & Hall & _ & Hout).
  assert (Htr : Forall trimmed (all_text st))
    by (rewrite Hall; apply files_effect_trimmed).
  pose proof (trimmed_words_sum _ Htr) as Hle.
  exists (listing (Glob.glob dir) ++ (files_effect (Glob.glob dir)).1.1).
  exists (length (join [space] (all_text st))).
  split; [|split; [exact Hle|]].
  - rewrite Hout, <- app_assoc. unfold summary.
    change (length (split ?s)) with (words s). rewrite words_join. reflexivity.
  - split.
    + intros H0. rewrite H0 in Hle.
      destruct (all_text st); [reflexivity|]. cbn [length] in Hle. lia.
    + intros ->. reflexivity.
Qed.

Lemma X3_total_characters_witness :
  run words_dir = (words_final, Returned tt) /\
  exists out w,
    stdout words_final =
      out ++ [Written output_file;
              TotalCharacters (sum_list (length <$> all_text words_final)
                               + (length (all_text words_final) - 1));
              TotalWords w] /\
    written words_final = Some (join [space] (all_text words_final)) /\
    length (join [space] (all_text words_final)) =
      (sum_list (length <$> all_text words_final)
       + (length (all_text words_final) - 1))%nat.
Proof.
  assert (Hrun : run words_dir = (words_final, Returned tt))
    by (vm_compute; reflexivity).
  split; [exact Hrun|]. exact (X3_total_characters words_dir words_final Hrun).
Defined.

Lemma X4_total_words_witness :
  run words_dir = (words_final, Returned tt) /\
  exists out c,
    stdout words_final =
      out ++ [Written output_file; TotalCharacters c;
              TotalWords (sum_list (words <$> all_text words_final))] /\
    (length (all_text words_final) <= sum_list (words <$> all_text words_final))%nat /\
    (sum_list (words <$> all_text words_final) = 0%nat <-> all_text words_final = []).
Proof.
  assert (Hrun : run words_dir = (words_final, Returned tt))
    by (vm_compute; reflexivity).
  split; [exact Hrun|]. exact (X4_total_words words_dir words_final Hrun).
Defined.

(* ------------------------------------------------------------------ *)
(** ** Further properties: the console *)

Lemma listing_no_progress (l : list Glob.entry) :
  processed_names (listing l) = [] /\
  extracted_counts (listing l) = [] /\
  warning_messages (listing l) = 0%nat.
Proof.
  unfold listing, processed_names, extracted_counts, warning_messages.
  cbn [omap list_omap List.filter is_warning].
  induction l as [|f l (IH1 & IH2 & IH3)]; [repeat split|].
  cbn [List.map omap list_omap List.filter is_warning].
  repeat split; assumption.
Qed.

Lemma text_entries_no_header (f : Glob.entry) :
  has_text_header f = false -> text_entries (reader f) = [].
Proof.
  unfold has_text_header, text_entries.
  destruct (Csv.fieldnames (reader f)); [|reflexivity].
  intros ->. reflexivity.
Qed.

Lemma file_effect_console (f : Glob.entry) :
  processed_names (file_effect f).1.1 = [basename f] /\
  ((file_effect f).2 = Returned tt ->
   extracted_counts (file_effect f).1.1 =
     (if has_text_header f then [length (text_entries (reader f))] else []) /\
   warning_messages (file_effect f).1.1 =
     (if has_text_header f then 0 else 1)%nat).
Proof.
  pose proof (file_effect_entries f) as He. revert He.
  unfold file_effect, has_text_header.
  destruct (Csv.fieldnames (reader f)) as [header|];
    [|intros _; split; [reflexivity|discriminate]].
  destruct (bool_decide (Text ∈ header));
    [|intros _; split; [reflexivity|intros _; split; reflexivity]].
  destruct (rows_effect (Csv.rows (reader f))) as [es [[]|e]]; cbn [fst snd].
  - intros He. split; [reflexivity|]. intros _.
    rewrite <- (He eq_refl). split; reflexivity.
  - intros _. split; [reflexivity|discriminate].
Qed.


Lemma files_effect_console (l : list Glob.entry) :
  (files_effect l).2 = Returned tt ->
  extracted_counts (files_effect l).1.1 =
    (fun f => length (text_entries (reader f))) <$> List.filter has_text_header l /\
  warning_messages (files_effect l).1.1 =
    length (List.filter (fun f => negb (has_text_header f)) l).
Proof.
  induction l as [|f l IH]; [intros _; split; reflexivity|].
  cbn [files_effect List.filter]. destruct (file_effect_console f) as [_ Hf].
  destruct (file_effect f) as [[out es] [[]|e]]; cbn [fst snd] in *;
    [|discriminate].
  destruct (files_effect l) as [[out' es'] o]; cbn [fst snd] in *.
  intros Ho. destruct (IH Ho) as [IH1 IH2]. destruct (Hf eq_refl) as [Hf1 Hf2].
  unfold extracted_counts, warning_messages in *.
  rewrite omap_app, List.filter_app, length_app, Hf1, Hf2, IH1, IH2.
  destruct (has_text_header f); split; reflexivity.
Qed.

(** X5.  On a run that returns, the "Extracted" lines carry, in discovery
    order, the number of text entries of each file whose header contains
    [Text], and these counts add up to the number of entries merged. *)
Theorem X5_extracted_counts (dir : Glob.directory) (st : state) :
  run dir = (st, Returned tt) ->
  extracted_counts (stdout st) =
    (fun f => length (text_entries (reader f)))
      <$> List.filter has_text_header (Glob.glob dir) /\
  sum_list (extracted_counts (stdout st)) = length (all_text st).
Proof.
  intros Hrun. destruct (run_returned dir st Hrun) as (Hret & Hall & _ & Hout).
  destruct (files_effect_console _ Hret) as [Hc _].
  destruct (listing_no_progress (Glob.glob dir)) as (_ & Hl & _).
  assert (H : extracted_counts (stdout st) =
              (fun f => length (text_entries (reader f)))
                <$> List.filter has_text_header (Glob.glob dir)).
  { rewrite Hout. unfold extracted_counts in *.
    rewrite !omap_app, Hl, Hc. cbn. rewrite app_nil_r. reflexivity. }
  split; [exact H|].
  rewrite H, Hall, (files_effect_entries _ Hret).
  generalize (Glob.glob dir). clear. intros l.
  induction l as [|f l IH]; [reflexivity|].
  cbn [List.filter List.map concat]. rewrite length_app, <- IH.
  destruct (has_text_header f) eqn:E.
  - reflexivity.
  - rewrite (text_entries_no_header f E). reflexivity.
Qed.


(** X7.  On a run that returns, every discovered file is accounted for by
    exactly one line: a warning when its header lacks [Text], an "Extracted"
    line otherwise. *)
Theorem X7_warned_or_extracted (dir : Glob.directory) (st : state) :
  run dir = (st, Returned tt) ->
  warning_messages (stdout st) =
    length (List.filter (fun f => negb (has_text_header f)) (Glob.glob dir)) /\
  (warning_messages (stdout st) + length (extracted_counts (stdout st)))%nat =
    length (Glob.glob dir).
Proof.
  intros Hrun. destruct (run_returned dir st Hrun) as (Hret & _ & _ & Hout).
  destruct (files_effect_console _ Hret) as [Hc Hw].
  destruct (listing_no_progress (Glob.glob dir)) as (_ & Hl & Hlw).
  assert (H1 : warning_messages (stdout st) =
               length (List.filter (fun f => negb (has_text_header f)) (Glob.glob dir))).
  { rewrite Hout. unfold warning_messages in *.
    rewrite !List.filter_app, !length_app, Hlw, Hw. cbn. lia. }
  assert (H2 : extracted_counts (stdout st) =
               (fun f => length (text_entries (reader f)))
                 <$> List.filter has_text_header (Glob.glob dir)).
  { rewrite Hout. unfold extracted_counts in *.
    rewrite !omap_app, Hl, Hc. cbn. rewrite app_nil_r. reflexivity. }
  split; [exact H1|]. rewrite H1, H2, length_fmap.
  generalize (Glob.glob dir). clear. intros l.
  induction l as [|f l IH]; [reflexivity|].
  cbn [List.filter]. destruct (has_text_header f); cbn [negb length]; lia.
Qed.

Lemma X5_extracted_counts_witness :
  run mixed_dir = (mixed_final, Returned tt) /\
  extracted_counts (stdout mixed_final) =
    (fun f => length (text_entries (reader f)))
      <$> List.filter has_text_header (Glob.glob mixed_dir) /\
  sum_list (extracted_counts (stdout mixed_final)) = length (all_text mixed_final).
Proof.
  assert (Hrun : run mixed_dir = (mixed_final, Returned tt))
    by (vm_compute; reflexivity).
  split; [exact Hrun|]. exact (X5_extracted_counts mixed_dir mixed_final Hrun).
Defined.


Lemma X7_warned_or_extracted_witness :
  run mixed_dir = (mixed_final, Returned tt) /\
  warning_messages (stdout mixed_final) =
    length (List.filter (fun f => negb (has_text_header f)) (Glob.glob mixed_dir)) /\
  (warning_messages (stdout mixed_final)
   + length (extracted_counts (stdout mixed_final)))%nat =
    length (Glob.glob mixed_dir).
Proof.
  assert (Hrun : run mixed_dir = (mixed_final, Returned tt))
    by (vm_compute; reflexivity).
  split; [exact Hrun|]. exact (X7_warned_or_extracted mixed_dir mixed_final Hrun).
Defined.

(* ------------------------------------------------------------------ *)
(** ** Further properties: rows and columns *)

Lemma dict_zip_lookup_notin (fieldnames : list str) (r : Csv.record)
    (d : Csv.dict) (k : str) :
  k ∉ fieldnames ->
  Csv.dict_zip fieldnames r d !! Some k = d !! Some k.
Proof.
  revert r d. induction fieldnames as [|k' ks IH]; intros r d Hk; [reflexivity|].
  destruct r as [|v vs]; [reflexivity|]. cbn [Csv.dict_zip].
  apply not_elem_of_cons in Hk as [Hne Hk].
  rewrite (IH _ _ Hk), lookup_insert_ne by congruence. reflexivity.
Qed.

Lemma dict_zip_lookup_at (h1 h2 : list str) (r : Csv.record) (d : Csv.dict)
    (k v : str) :
  k ∉ h2 ->
  r !! length h1 = Some v ->
  Csv.dict_zip (h1 ++ k :: h2) r d !! Some k = Some (Str v).
Proof.
  intros Hk. revert r d. induction h1 as [|k' h1 IH]; intros r d Hv.
  - destruct r as [|v' vs]; [discriminate|]. injection Hv as ->.
    cbn [app Csv.dict_zip].
    rewrite (dict_zip_lookup_notin _ _ _ _ Hk). apply lookup_insert_eq.
  - destruct r as [|v' vs]; [discriminate|]. cbn [app Csv.dict_zip].
    apply IH. exact Hv.
Qed.

(** X8.  The value of a field name in a row is the field of the record at the
    position of the last column carrying that name: with duplicate column
    names the last one wins, and neither surplus fields nor the [None] filled
    in for later missing columns change it. *)
Theorem X8_last_column_wins
    (h1 h2 : list str) (r : Csv.record) (k v : str) :
  k ∉ h2 ->
  r !! length h1 = Some v ->
  Csv.row (h1 ++ k :: h2) r !! Some k = Some (Str v).
Proof.
  intros Hk Hv. unfold Csv.row.
  pose proof (dict_zip_lookup_at h1 h2 r ∅ k v Hk Hv) as Hz.
  destruct (Nat.ltb_spec (length (h1 ++ k :: h2)) (length r)).
  - rewrite lookup_insert_ne by discriminate. exact Hz.
  - destruct (Nat.ltb_spec (length r) (length (h1 ++ k :: h2))); [|exact Hz].
    rewrite fill_restval_lookup, bool_decide_eq_false_2; [exact Hz|].
    apply lookup_lt_Some in Hv. rewrite drop_app_ge by lia.
    destruct (length r - length h1)%nat as [|m] eqn:E; [lia|]. cbn [drop].
    intros Hin. apply Hk.
    exact (elem_of_sublist _ _ _ Hin (sublist_drop h2 m)).
Qed.

Lemma X8_last_column_wins_witness :
  (Text ∉ [u "Note"]) /\
  [u "first"; u "x"; u "second"; u "y"; u "surplus"] !! length [u "Text"; u "Id"]
    = Some (u "second") /\
  Csv.row ([u "Text"; u "Id"] ++ Text :: [u "Note"])
          [u "first"; u "x"; u "second"; u "y"; u "surplus"] !! Some Text
    = Some (Str (u "second")).
Proof.
  assert (H1 : Text ∉ [u "Note"])
    by (apply (bool_decide_unpack _); vm_compute; exact I).
  assert (H2 : [u "first"; u "x"; u "second"; u "y"; u "surplus"]
                 !! length [u "Text"; u "Id"] = Some (u "second"))
    by reflexivity.
  split; [exact H1|]. split; [exact H2|].
  exact (X8_last_column_wins [u "Text"; u "Id"] [u "Note"] _ Text (u "second") H1 H2).
Defined.

Lemma dict_zip_take (fieldnames : list str) (r : Csv.record) (d : Csv.dict) :
  Csv.dict_zip fieldnames (take (length fieldnames) r) d =
  Csv.dict_zip fieldnames r d.
Proof.
  revert r d. induction fieldnames as [|k ks IH]; intros r d.
  - destruct r; reflexivity.
  - destruct r as [|v vs]; [reflexivity|]. cbn [length take Csv.dict_zip].
    apply IH.
Qed.

(** X9.  Surplus fields never reach a named column.  For a record with at
    least as many fields as the header, every field name has the value it has
    in the record cut to the header's length, so the loop body treats both
    alike; the surplus is what [DictReader] stores under the key [None]. *)
Theorem X9_surplus_fields_ignored (header r : Csv.record) :
  (length header <= length r)%nat ->
  (forall k, Csv.row header r !! Some k =
             Csv.row header (take (length header) r) !! Some k) /\
  (forall st, extract_row (Csv.row header r) st =
              extract_row (Csv.row header (take (length header) r)) st) /\
  Csv.row header r !! None =
    (if (length header <? length r)%nat
     then Some (List_ (drop (length header) r)) else None).
Proof.
  intros Hle.
  assert (Hk : forall k, Csv.row header r !! Some k =
                         Csv.row header (take (length header) r) !! Some k).
  { intros k. unfold Csv.row. rewrite dict_zip_take, length_take.
    replace (length header `min` length r)%nat with (length header) by lia.
    rewrite Nat.ltb_irrefl.
    destruct (Nat.ltb_spec (length header) (length r)).
    - rewrite lookup_insert_ne by discriminate. reflexivity.
    - destruct (Nat.ltb_spec (length r) (length header)); [lia|reflexivity]. }
  split; [exact Hk|]. split.
  - intros st. unfold extract_row, getitem, bind. rewrite Hk. reflexivity.
  - unfold Csv.row. destruct (Nat.ltb_spec (length header) (length r)).
    + apply lookup_insert_eq.
    + destruct (Nat.ltb_spec (length r) (length header)); [lia|].
      clear. generalize (∅ : Csv.dict) (lookup_empty (M:=gmap (option str)) (A:=value) None).
      revert r. induction header as [|k ks IH]; intros r d Hd.
      * destruct r; exact Hd.
      * destruct r as [|v vs]; [exact Hd|]. cbn [Csv.dict_zip]. apply IH.
        rewrite lookup_insert_ne by discriminate. exact Hd.
Qed.

Lemma X9_surplus_fields_ignored_witness :
  Csv.row [u "Name"; u "Text"] [u "A"; u "hello"; u "x"; u "y"] !! Some Text =
  Csv.row [u "Name"; u "Text"] [u "A"; u "hello"] !! Some Text.
Proof.
  refine (proj1 (X9_surplus_fields_ignored [u "Name"; u "Text"]
                   [u "A"; u "hello"; u "x"; u "y"] _) Text).
  cbn [length]. lia.
Defined.

(* ------------------------------------------------------------------ *)
(** ** Further properties: trimming *)





(* ------------------------------------------------------------------ *)
(** ** Further properties: what does not change a run *)

Lemma process_file_without_blank
    (name : str) (header : Csv.record) (pre post : list Csv.record) (st : state) :
  process_file (name, header :: pre ++ [] :: post) st =
  process_file (name, header :: pre ++ post) st.
Proof.
  unfold process_file, reader, basename.
  cbn [fst snd Csv.fieldnames Csv.rows].
  rewrite !rows_from_app. reflexivity.
Qed.

(** X11.  A blank line after the header is no row: the run on a directory in
    which a file has a blank record among its data records is the run on the
    directory with that record removed. *)
Theorem X11_blank_line_is_no_row
    (dir1 dir2 : Glob.directory) (name : str) (header : Csv.record)
    (pre post : list Csv.record) :
  run (dir1 ++ (name, header :: pre ++ [] :: post) :: dir2) =
  run (dir1 ++ (name, header :: pre ++ post) :: dir2).
Proof.
  rewrite !run_files_loop. unfold files_loop_start, Glob.glob.
  rewrite !List.filter_app. cbn [List.filter fst].
  destruct (Glob.matches name); [|reflexivity].
  unfold listing. rewrite !length_app, !List.map_app.
  cbn [length List.map basename fst].
  rewrite for_each_ext_at with (y := (name, header :: pre ++ post)); [reflexivity|].
  intros st. apply process_file_without_blank.
Qed.



Lemma files_effect_skip (l1 l2 : list Glob.entry) (f : Glob.entry) :
  (file_effect f).1.2 = [] ->
  (file_effect f).2 = Returned tt ->
  (files_effect (l1 ++ f :: l2)).1.2 = (files_effect (l1 ++ l2)).1.2 /\
  (files_effect (l1 ++ f :: l2)).2 = (files_effect (l1 ++ l2)).2.
Proof.
  intros Hes Ho. induction l1 as [|g l1 [IH1 IH2]].
  - cbn [app files_effect].
    destruct (file_effect f) as [[out es] o]. cbn [fst snd] in *. subst es o.
    destruct (files_effect l2) as [[out' es'] o']. split; reflexivity.
  - cbn [app files_effect].
    destruct (file_effect g) as [[out es] [[]|e]]; [|split; reflexivity].
    destruct (files_effect (l1 ++ f :: l2)) as [[out1 es1] o1].
    destruct (files_effect (l1 ++ l2)) as [[out2 es2] o2].
    cbn [fst snd] in *. subst. split; reflexivity.
Qed.

Lemma run_entries (dir : Glob.directory) :
  all_text (run dir).1 = (files_effect (Glob.glob dir)).1.2 /\
  written (run dir).1 =
    match (files_effect (Glob.glob dir)).2 with
    | Returned _ => Some (join [space] (files_effect (Glob.glob dir)).1.2)
    | Raised _ => None
    end.
Proof.
  destruct (run_spec dir) as [rc ->]. cbv zeta.
  destruct (files_effect (Glob.glob dir)) as [[out es] [[]|e]]; split; reflexivity.
Qed.

(** X13.  A file whose header lacks [Text] changes the console only: with or
    without it in the directory, the run ends the same way, holds the same
    entries and writes the same text. *)
Theorem X13_file_without_text_column
    (dir1 dir2 : Glob.directory) (name : str) (header : Csv.record)
    (records : list Csv.record) :
  Text ∉ header ->
  (run (dir1 ++ (name, header :: records) :: dir2)).2 = (run (dir1 ++ dir2)).2 /\
  all_text (run (dir1 ++ (name, header :: records) :: dir2)).1 =
    all_text (run (dir1 ++ dir2)).1 /\
  written (run (dir1 ++ (name, header :: records) :: dir2)).1 =
    written (run (dir1 ++ dir2)).1.
Proof.
  intros Hnot.
  destruct (run_entries (dir1 ++ (name, header :: records) :: dir2)) as [Ha1 Hw1].
  destruct (run_entries (dir1 ++ dir2)) as [Ha2 Hw2].
  rewrite !run_outcome, Ha1, Ha2, Hw1, Hw2. clear Ha1 Ha2 Hw1 Hw2.
  unfold Glob.glob. rewrite !List.filter_app. cbn [List.filter fst].
  destruct (Glob.matches name); [|repeat split; reflexivity].
  assert (Hf : (file_effect (name, header :: records)).1.2 = [] /\
               (file_effect (name, header :: records)).2 = Returned tt).
  { unfold file_effect, reader. cbn [snd Csv.fieldnames].
    rewrite bool_decide_eq_false_2 by exact Hnot. split; reflexivity. }
  destruct Hf as [Hf1 Hf2].
  destruct (files_effect_skip (List.filter (fun e => Glob.matches e.1) dir1)
              (List.filter (fun e => Glob.matches e.1) dir2) _ Hf1 Hf2) as [-> ->].
  repeat split; reflexivity.
Qed.

Lemma X13_file_without_text_column_witness :
  (Text ∉ [u "Name"; u "text"]) /\
  written (run (order_dir_1 ++ (u "old.csv", [u "Name"; u "text"] :: [[u "A"; u "lost"]])
                  :: order_dir_2)).1 =
    written (run (order_dir_1 ++ order_dir_2)).1.
Proof.
  assert (H : Text ∉ [u "Name"; u "text"])
    by (apply (bool_decide_unpack _); vm_compute; exact I).
  split; [exact H|].
  exact (proj2 (proj2 (X13_file_without_text_column order_dir_1 order_dir_2
                         (u "old.csv") [u "Name"; u "text"] [[u "A"; u "lost"]] H))).
Defined.

(* ------------------------------------------------------------------ *)
(** ** Further properties: discovery *)



(* ------------------------------------------------------------------ *)
(** ** Further properties: no file with the required column *)

Lemma process_file_no_text
    (name : str) (header : Csv.record) (records : list Csv.record) (st : state) :
  Text ∉ header ->
  process_file (name, header :: records) st =
  (State (stdout st ++ [Processing name; WarningNoText])
         (all_text st) (row_count st) (written st), Returned tt).
Proof.
  intros Hnot. unfold process_file, bind, print, not_in, reader, basename.
  cbn [fst snd Csv.fieldnames stdout all_text row_count written].
  rewrite bool_decide_eq_false_2 by exact Hnot.
  cbn [negb ret stdout all_text row_count written].
  rewrite <- app_assoc. reflexivity.
Qed.

Lemma for_each_lacks_text (l : list Glob.entry) (st : state) :
  forallb lacks_text l = true ->
  for_each l process_file st =
  (State (stdout st ++ concat ((fun f => [Processing (basename f); WarningNoText]) <$> l))
         (all_text st) (row_count st) (written st), Returned tt).
Proof.
  revert st. induction l as [|f l IH]; intros st Hl.
  - cbn. rewrite app_nil_r, state_eta. reflexivity.
  - cbn [forallb] in Hl. apply andb_true_iff in Hl as [Hf Hl].
    cbn [for_each]. unfold bind. destruct f as [name records].
    unfold lacks_text, reader in Hf. cbn [snd] in Hf.
    destruct records as [|header records]; [discriminate|].
    apply negb_true_iff, bool_decide_eq_false_1 in Hf.
    rewrite (process_file_no_text name header records st Hf), (IH _ Hl).
    cbn [stdout all_text row_count written fmap list_fmap concat basename fst].
    rewrite <- !app_assoc. reflexivity.
Qed.

(** X15 (Scenario B, for any number of files).  When every discovered file
    has a header without [Text], the run returns after one warning per file,
    writes the empty string and reports 0 characters and 0 words. *)
Theorem X15_no_text_column_anywhere (dir : Glob.directory) :
  forallb lacks_text (Glob.glob dir) = true ->
  run dir =
  (State (listing (Glob.glob dir)
          ++ concat ((fun f => [Processing (basename f); WarningNoText])
                       <$> Glob.glob dir)
          ++ [Written output_file; TotalCharacters 0; TotalWords 0])
         [] 0 (Some []), Returned tt).
Proof.
  intros H. rewrite run_files_loop, (for_each_lacks_text _ _ H).
  unfold files_loop_start. cbn [stdout all_text row_count written].
  rewrite <- app_assoc. reflexivity.
Qed.

Lemma X15_no_text_column_anywhere_witness :
  forallb lacks_text (Glob.glob scenario_B_dir) = true /\
  run scenario_B_dir =
  (State [Found 2; Listed (u "b.csv"); Listed (u "old.csv");
          Processing (u "b.csv"); WarningNoText;
          Processing (u "old.csv"); WarningNoText;
          Written output_file; TotalCharacters 0; TotalWords 0]
         [] 0 (Some []), Returned tt).
Proof.
  assert (H : forallb lacks_text (Glob.glob scenario_B_dir) = true)
    by (vm_compute; reflexivity).
  split; [exact H|]. exact (X15_no_text_column_anywhere scenario_B_dir H).
Defined.

(* ------------------------------------------------------------------ *)
(** ** Further properties: the numbers on the console *)

Lemma digits_rev_value (fuel n : nat) :
  (n < fuel)%nat -> value_rev (digits_rev fuel n) = n.
Proof.
  revert n. induction fuel as [|fuel IH]; intros n Hn; [lia|].
  cbn [digits_rev]. destruct (Nat.ltb_spec n 10).
  - cbn [value_rev]. lia.
  - cbn [value_rev]. rewrite IH.
    + pose proof (Nat.div_mod_eq n 10). lia.
    + pose proof (Nat.div_lt n 10). lia.
Qed.

Lemma digits_rev_lt10 (fuel n : nat) :
  Forall (fun d => (d < 10)%nat) (digits_rev fuel n).
Proof.
  revert n. induction fuel as [|fuel IH]; intros n; [constructor|].
  cbn [digits_rev]. destruct (Nat.ltb_spec n 10).
  - constructor; [assumption|constructor].
  - constructor; [|apply IH]. apply Nat.mod_upper_bound. discriminate.
Qed.

(** The most significant digit of a positive number is not 0. *)
Lemma digits_rev_last (fuel n : nat) :
  (n < fuel)%nat ->
  exists d, last (digits_rev fuel n) = Some d /\ (n <> 0 -> d <> 0)%nat.
Proof.
  revert n. induction fuel as [|fuel IH]; intros n Hn; [lia|].
  cbn [digits_rev]. destruct (Nat.ltb_spec n 10).
  - exists n. split; [reflexivity|auto].
  - assert (Hq : (n / 10 < fuel)%nat) by (pose proof (Nat.div_lt n 10); lia).
    destruct (IH _ Hq) as (d & Hd & Hnz). exists d.
    split.
    + rewrite last_cons, Hd. reflexivity.
    + intros _. apply Hnz.
      pose proof (Nat.div_mod_eq n 10).
      pose proof (Nat.mod_upper_bound n 10). lia.
Qed.

Lemma fmap_rev {A B} (f : A -> B) (l : list A) : f <$> rev l = rev (f <$> l).
Proof.
  induction l as [|x l IH]; [reflexivity|].
  cbn [rev]. rewrite fmap_app, IH. reflexivity.
Qed.

Lemma digit_char_inj (d1 d2 : nat) : digit_char d1 = digit_char d2 -> d1 = d2.
Proof. unfold digit_char. lia. Qed.

Lemma digit_chars_inj (ds1 ds2 : list nat) :
  digit_char <$> ds1 = digit_char <$> ds2 -> ds1 = ds2.
Proof.
  revert ds2. induction ds1 as [|d ds1 IH]; intros [|d' ds2] H;
    try discriminate; [reflexivity|].
  rewrite !fmap_cons in H. injection H as Hd H.
  f_equal; [apply digit_char_inj; exact Hd|apply IH; exact H].
Qed.

Lemma decimal_inj (n m : nat) : decimal n = decimal m -> n = m.
Proof.
  unfold decimal. intros H.
  apply (f_equal (@rev N)) in H. rewrite !rev_involutive in H.
  apply digit_chars_inj in H.
  rewrite <- (digits_rev_value (S n) n), <- (digits_rev_value (S m) m) by lia.
  rewrite H. reflexivity.
Qed.

(** X16.  The decimal text of a count: only digits, at least one, no leading
    zero except for 0 itself; the digits denote the count, so two counts
    with the same text are equal. *)
Theorem X16_decimal_text (n : nat) :
  Forall (fun c => 48 <= c <= 57) (decimal n) /\
  (exists c, head (decimal n) = Some c /\ (n <> 0%nat -> c <> 48)) /\
  value_rev (rev ((fun c => N.to_nat (c - 48)) <$> decimal n)) = n /\
  (forall m, decimal n = decimal m -> n = m).
Proof.
  split; [|split; [|split]].
  - unfold decimal. apply Forall_rev, Forall_fmap.
    eapply Forall_impl; [apply digits_rev_lt10|].
    intros d Hd. cbv beta in Hd. unfold digit_char. cbn. lia.
  - unfold decimal. rewrite head_rev.
    destruct (digits_rev_last (S n) n) as (d & Hd & Hnz); [lia|].
    exists (digit_char d). split.
    + rewrite fmap_last, Hd. reflexivity.
    + intros Hn. specialize (Hnz Hn). unfold digit_char. lia.
  - unfold decimal. rewrite fmap_rev, rev_involutive, <- list_fmap_compose.
    rewrite (list_fmap_ext _ id).
    + rewrite list_fmap_id. apply digits_rev_value. lia.
    + intros d. unfold digit_char. cbn. lia.
  - intros m. apply decimal_inj.
Qed.

Lemma X16_decimal_text_witness :
  decimal 1207 = u "1207" /\
  (forall m, decimal 1207 = decimal m -> 1207%nat = m).
Proof.
  split; [vm_compute; reflexivity|].
  exact (proj2 (proj2 (proj2 (X16_decimal_text 1207)))).
Defined.

(** Induction three digits at a time, as [group3] recurses. *)
Lemma group3_ind (P : str -> Prop) :
  P [] -> (forall a, P [a]) -> (forall a b, P [a; b]) -> (forall a b c, P [a; b; c]) ->
  (forall a b c d rest, P (d :: rest) -> P (a :: b :: c :: d :: rest)) ->
  forall ds, P ds.
Proof.
  intros H0 H1 H2 H3 H4. fix IH 1.
  intros [|a [|b [|c rest]]]; [exact H0|apply H1|apply H2|].
  destruct rest as [|d rest'] eqn:E; [apply H3|].
  apply H4. rewrite <- E. apply IH.
Qed.

Lemma group3_filter (ds : str) :
  Forall (fun c => c <> 44) ds ->
  List.filter (fun c => negb (c =? 44)) (group3 ds) = ds.
Proof.
  assert (Hkeep : forall c, c <> 44 -> negb (c =? 44) = true).
  { intros c Hc. apply negb_true_iff, N.eqb_neq. exact Hc. }
  induction ds as [|a|a b|a b c|a b c d rest IH] using group3_ind; intros H.
  - reflexivity.
  - apply Forall_cons in H as [Ha _]. cbn. rewrite (Hkeep a Ha). reflexivity.
  - apply Forall_cons in H as [Ha H]. apply Forall_cons in H as [Hb _].
    cbn. rewrite (Hkeep a Ha), (Hkeep b Hb). reflexivity.
  - apply Forall_cons in H as [Ha H]. apply Forall_cons in H as [Hb H].
    apply Forall_cons in H as [Hc _].
    cbn. rewrite (Hkeep a Ha), (Hkeep b Hb), (Hkeep c Hc). reflexivity.
  - apply Forall_cons in H as [Ha H]. apply Forall_cons in H as [Hb H].
    apply Forall_cons in H as [Hc H].
    change (group3 (a :: b :: c :: d :: rest))
      with (a :: b :: c :: 44 :: group3 (d :: rest)).
    cbn [List.filter]. rewrite (Hkeep a Ha), (Hkeep b Hb), (Hkeep c Hc).
    change (negb (44 =? 44)) with false. cbv iota. rewrite (IH H). reflexivity.
Qed.

Lemma group3_last (ds : str) : last (group3 ds) = last ds.
Proof.
  induction ds as [|a|a b|a b c|a b c d rest IH] using group3_ind;
    try reflexivity.
  change (group3 (a :: b :: c :: d :: rest))
    with (a :: b :: c :: 44 :: group3 (d :: rest)).
  assert (Hne : group3 (d :: rest) <> []).
  { destruct rest as [|e [|g [|h r]]]; discriminate. }
  destruct (group3 (d :: rest)) as [|x l] eqn:E; [congruence|].
  change (last (a :: b :: c :: 44 :: x :: l)) with (last (x :: l)).
  change (last (a :: b :: c :: d :: rest)) with (last (d :: rest)). exact IH.
Qed.

Lemma group3_commas (ds : str) :
  Forall (fun c => c <> 44) ds ->
  forall (i : nat) (c : N), group3 ds !! i = Some c -> (c = 44 <-> (i mod 4 = 3)%nat).
Proof.
  assert (Hsmall : forall i, (i < 3)%nat -> (i mod 4 <> 3)%nat).
  { intros i Hi. rewrite Nat.mod_small by lia. lia. }
  induction ds as [|a|a b|a b c|a b c d rest IH] using group3_ind; intros H i x Hx.
  - destruct i; discriminate.
  - apply Forall_cons in H as [Ha _].
    destruct i as [|i]; [|destruct i; discriminate].
    injection Hx as <-. split; [contradiction|intros Hi; discriminate].
  - apply Forall_cons in H as [Ha H]. apply Forall_cons in H as [Hb _].
    destruct i as [|[|i]]; [| |destruct i; discriminate]; injection Hx as <-;
      (split; [contradiction|intros Hi; discriminate]).
  - apply Forall_cons in H as [Ha H]. apply Forall_cons in H as [Hb H].
    apply Forall_cons in H as [Hc _].
    destruct i as [|[|[|i]]]; [| | |destruct i; discriminate]; injection Hx as <-;
      (split; [contradiction|intros Hi; discriminate]).
  - apply Forall_cons in H as [Ha H]. apply Forall_cons in H as [Hb H].
    apply Forall_cons in H as [Hc H].
    change (group3 (a :: b :: c :: d :: rest))
      with (a :: b :: c :: 44 :: group3 (d :: rest)) in Hx.
    destruct i as [|[|[|[|i]]]].
    + injection Hx as <-. split; [contradiction|intros Hi; discriminate].
    + injection Hx as <-. split; [contradiction|intros Hi; discriminate].
    + injection Hx as <-. split; [contradiction|intros Hi; discriminate].
    + injection Hx as <-. split; reflexivity.
    + cbn [lookup list_lookup] in Hx. rewrite (IH H i x Hx).
      replace (S (S (S (S i)))) with (i + 1 * 4)%nat by lia.
      rewrite Nat.Div0.mod_add. reflexivity.
Qed.

Lemma digit_chars_no_comma (fuel n : nat) :
  Forall (fun c => c <> 44) (digit_char <$> digits_rev fuel n).
Proof.
  apply Forall_fmap. eapply Forall_impl; [apply digits_rev_lt10|].
  intros d Hd. cbv beta in Hd. unfold digit_char. cbn. lia.
Qed.

(** X17.  The thousands-separated text of a count is its decimal text with
    commas added: removing the commas gives the decimal text back, the commas
    stand exactly at every fourth position counted from the right, and the
    text starts with the leading digit, never with a comma.  Two counts with
    the same text are equal. *)
Theorem X17_thousands_text (n : nat) :
  List.filter (fun c => negb (c =? 44)) (thousands n) = decimal n /\
  (forall (i : nat) (c : N),
     rev (thousands n) !! i = Some c -> (c = 44 <-> (i mod 4 = 3)%nat)) /\
  head (thousands n) = head (decimal n) /\
  (forall m, thousands n = thousands m -> n = m).
Proof.
  assert (Hf : forall k, List.filter (fun c => negb (c =? 44)) (thousands k) = decimal k).
  { intros k. unfold thousands, decimal.
    rewrite filter_rev, group3_filter by apply digit_chars_no_comma. reflexivity. }
  split; [apply Hf|]. split; [|split].
  - unfold thousands. rewrite rev_involutive.
    apply group3_commas, digit_chars_no_comma.
  - unfold thousands, decimal. rewrite !head_rev. apply group3_last.
  - intros m H. apply decimal_inj. rewrite <- !Hf, H. reflexivity.
Qed.

Lemma X17_thousands_text_witness :
  thousands 1234 = u "1,234" /\
  (forall m, thousands 1234 = thousands m -> 1234%nat = m).
Proof.
  split; [vm_compute; reflexivity|].
  exact (proj2 (proj2 (proj2 (X17_thousands_text 1234)))).
Defined.

(* ------------------------------------------------------------------ *)
(** ** Further properties: names and lines *)

Lemma basename_no_slash (p : str) : 47 ∉ p -> posix_basename p = p.
Proof.
  destruct p as [|c p]; [reflexivity|]. intros [Hc Hp]%not_elem_of_cons.
  cbn [posix_basename]. rewrite bool_decide_eq_false_2 by exact Hp.
  destruct (N.eqb_spec c 47); [congruence|reflexivity].
Qed.

Lemma basename_app_slash (x name : str) :
  47 ∉ name -> posix_basename (x ++ 47 :: name) = name.
Proof.
  intros Hn. induction x as [|c x IH].
  - cbn [app posix_basename]. rewrite bool_decide_eq_false_2 by exact Hn.
    reflexivity.
  - cbn [app posix_basename]. rewrite bool_decide_eq_true_2; [exact IH|].
    apply elem_of_app. right. left.
Qed.

Lemma basename_has_no_slash (p : str) : 47 ∉ posix_basename p.
Proof.
  induction p as [|c p IH]; [apply not_elem_of_nil|].
  cbn [posix_basename]. destruct (decide (47 ∈ p)) as [Hp|Hp].
  - rewrite bool_decide_eq_true_2 by exact Hp. exact IH.
  - rewrite bool_decide_eq_false_2 by exact Hp.
    destruct (N.eqb_spec c 47) as [->|Hc]; [exact Hp|].
    apply not_elem_of_cons. split; [congruence|exact Hp].
Qed.

(** X18.  The name printed for a discovered file is the name of its directory
    entry: joining a directory and a name without slash and taking the
    basename gives the name back, whether or not the directory ends with a
    slash.  A basename never contains a slash. *)
Theorem X18_basename_of_join (dir name : str) :
  47 ∉ name ->
  posix_basename (path_join dir name) = name /\
  (forall p, 47 ∉ posix_basename p).
Proof.
  intros Hn. split; [|apply basename_has_no_slash].
  unfold path_join.
  assert (Hhead : match name with c :: _ => c =? 47 | [] => false end = false).
  { destruct name as [|c name]; [reflexivity|].
    apply not_elem_of_cons in Hn as [Hc _].
    destruct (N.eqb_spec c 47); [congruence|reflexivity]. }
  rewrite Hhead.
  destruct dir as [|d dir] using rev_ind.
  - cbn [last app]. apply basename_no_slash. exact Hn.
  - rewrite last_snoc. destruct (N.eqb_spec d 47) as [->|Hd].
    + rewrite <- app_assoc. apply basename_app_slash. exact Hn.
    + rewrite <- app_assoc. cbn [app].
      change (d :: 47 :: name) with ([d] ++ 47 :: name). rewrite app_assoc.
      apply basename_app_slash. exact Hn.
Qed.

Lemma X18_basename_of_join_witness :
  (47 ∉ u "merged_vocabulary.txt") /\
  posix_basename (path_join (u "/srv/app/docs") (u "merged_vocabulary.txt")) =
    u "merged_vocabulary.txt".
Proof.
  assert (H : 47 ∉ u "merged_vocabulary.txt")
    by (apply (bool_decide_unpack _); vm_compute; exact I).
  split; [exact H|].
  exact (proj1 (X18_basename_of_join (u "/srv/app/docs") (u "merged_vocabulary.txt") H)).
Defined.








(* ------------------------------------------------------------------ *)
(** ** Further properties: directories put together or reordered *)

Lemma run_returns_iff (dir : Glob.directory) :
  (run dir).2 = Returned tt <-> forallb file_ok (Glob.glob dir) = true.
Proof.
  rewrite run_outcome, files_effect_outcome. unfold first_failure.
  induction (Glob.glob dir) as [|f l IH]; [split; reflexivity|].
  cbn [List.find forallb]. destruct (file_ok f); cbn [negb andb].
  - exact IH.
  - split; discriminate.
Qed.

Lemma run_returned_entries (dir : Glob.directory) :
  (run dir).2 = Returned tt ->
  all_text (run dir).1 =
    concat (List.map (fun f => text_entries (reader f)) (Glob.glob dir)).
Proof.
  intros H. rewrite run_outcome in H.
  rewrite (proj1 (run_entries dir)). apply files_effect_entries. exact H.
Qed.

(** X20.  Runs compose along the listing.  A run over a directory listed as
    [dir1] followed by [dir2] returns exactly when the runs over [dir1] and
    over [dir2] both return, and its entries are then those of the first
    followed by those of the second. *)
Theorem X20_runs_compose (dir1 dir2 : Glob.directory) :
  ((run (dir1 ++ dir2)).2 = Returned tt <->
   (run dir1).2 = Returned tt /\ (run dir2).2 = Returned tt) /\
  ((run (dir1 ++ dir2)).2 = Returned tt ->
   all_text (run (dir1 ++ dir2)).1 = all_text (run dir1).1 ++ all_text (run dir2).1).
Proof.
  assert (Hiff : (run (dir1 ++ dir2)).2 = Returned tt <->
                 (run dir1).2 = Returned tt /\ (run dir2).2 = Returned tt).
  { rewrite !run_returns_iff. unfold Glob.glob.
    rewrite List.filter_app, forallb_app. apply andb_true_iff. }
  split; [exact Hiff|]. intros H. destruct (proj1 Hiff H) as [H1 H2].
  rewrite !run_returned_entries by assumption.
  unfold Glob.glob. rewrite List.filter_app, List.map_app, concat_app.
  reflexivity.
Qed.

Lemma X20_runs_compose_witness :
  (run (order_dir_1 ++ scenario_C_dir)).2 = Returned tt /\
  all_text (run (order_dir_1 ++ scenario_C_dir)).1 =
    all_text (run order_dir_1).1 ++ all_text (run scenario_C_dir).1.
Proof.
  assert (H : (run (order_dir_1 ++ scenario_C_dir)).2 = Returned tt)
    by (vm_compute; reflexivity).
  split; [exact H|].
  exact (proj2 (X20_runs_compose order_dir_1 scenario_C_dir) H).
Defined.

Lemma glob_Permutation (dir dir' : Glob.directory) :
  Permutation dir dir' -> Permutation (Glob.glob dir) (Glob.glob dir').
Proof.
  unfold Glob.glob. induction 1 as [|e l l' _ IH|e1 e2 l|l l' l'' _ IH1 _ IH2].
  - constructor.
  - cbn [List.filter]. destruct (Glob.matches e.1); [constructor|]; exact IH.
  - cbn [List.filter].
    destruct (Glob.matches e1.1), (Glob.matches e2.1);
      try reflexivity. apply perm_swap.
  - etransitivity; eassumption.
Qed.

Lemma concat_map_Permutation {A B} (f : A -> list B) (l l' : list A) :
  Permutation l l' ->
  Permutation (concat (List.map f l)) (concat (List.map f l')).
Proof.
  induction 1 as [|x l l' _ IH|x y l|l l' l'' _ IH1 _ IH2].
  - constructor.
  - cbn [List.map concat]. apply Permutation_app_head. exact IH.
  - cbn [List.map concat]. rewrite !app_assoc.
    apply Permutation_app_tail, Permutation_app_comm.
  - etransitivity; eassumption.
Qed.

Lemma forallb_Permutation {A} (p : A -> bool) (l l' : list A) :
  Permutation l l' -> forallb p l = forallb p l'.
Proof.
  induction 1 as [|x l l' _ IH|x y l|l l' l'' _ IH1 _ IH2].
  - reflexivity.
  - cbn [forallb]. rewrite IH. reflexivity.
  - cbn [forallb]. destruct (p x), (p y); reflexivity.
  - congruence.
Qed.

(** X21.  The order of discovery changes the merged text but not its size.
    When the same entries are listed in another order, a run that returned
    still returns, the entries merged are the same up to order, and the
    merged text has the same number of characters and of words. *)
Theorem X21_order_keeps_counts (dir dir' : Glob.directory) :
  Permutation dir dir' ->
  (run dir).2 = Returned tt ->
  (run dir').2 = Returned tt /\
  Permutation (all_text (run dir).1) (all_text (run dir').1) /\
  length (join [space] (all_text (run dir).1)) =
    length (join [space] (all_text (run dir').1)) /\
  words (join [space] (all_text (run dir).1)) =
    words (join [space] (all_text (run dir').1)).
Proof.
  intros Hp Hr. pose proof (glob_Permutation _ _ Hp) as Hg.
  assert (Hr' : (run dir').2 = Returned tt).
  { apply run_returns_iff. rewrite <- (forallb_Permutation _ _ _ Hg).
    apply run_returns_iff. exact Hr. }
  assert (He : Permutation (all_text (run dir).1) (all_text (run dir').1)).
  { rewrite !run_returned_entries by assumption.
    apply concat_map_Permutation. exact Hg. }
  split; [exact Hr'|]. split; [exact He|]. split.
  - rewrite !length_join, He. reflexivity.
  - rewrite !words_join, He. reflexivity.
Qed.

Lemma X21_order_keeps_counts_witness :
  Permutation order_dir_1 order_dir_2 /\
  (run order_dir_1).2 = Returned tt /\
  length (join [space] (all_text (run order_dir_1).1)) =
    length (join [space] (all_text (run order_dir_2).1)).
Proof.
  assert (Hp : Permutation order_dir_1 order_dir_2) by apply perm_swap.
  assert (Hr : (run order_dir_1).2 = Returned tt) by (vm_compute; reflexivity).
  split; [exact Hp|]. split; [exact Hr|].
  exact (proj1 (proj2 (proj2 (X21_order_keeps_counts _ _ Hp Hr)))).
Defined.
